(** * Git Flow Next (VS Code extension): branch classifier, argument
      resolvers and state refresh of [src/extension.ts]

    A shallow embedding of the helper functions declared inside
    [activate] (and of [GitFlowTreeDataProvider.getBranchList]) together
    with the properties the specification states about them.

    - JavaScript strings are sequences of UTF-16 code units ([list N]).
    - The hosting environment (workspace folders, [execAsync], the
      settings, the answers of the user to prompts) is a read-only
      [World]; what the extension mutates (context keys, the declined
      list of [workspaceState], what it shows) is a [State] threaded
      through a state-and-exception monad. *)

From Stdlib Require Import NArith List Bool Lia String Ascii.
From stdpp Require Import base option list gmap.
Import ListNotations.

Local Open Scope N_scope.
Local Open Scope list_scope.

(** ** JavaScript strings *)

Module JS.

(** A string is its sequence of UTF-16 code units. *)
Definition jstring := list N.

(** String literals of the source (all of them are ASCII). *)
Definition js (s : string) : jstring :=
  map N_of_ascii (list_ascii_of_string s).
Arguments js s%_string : simpl never.

(** ECMAScript [LineTerminator]: LF, CR, LS, PS. *)
Definition isLineTerminator (c : N) : bool :=
  (c =? 10) || (c =? 13) || (c =? 8232) || (c =? 8233).

(** ECMAScript [WhiteSpace] (TAB, VT, FF, SP, NBSP, ZWNBSP and the
    Unicode space separators) or [LineTerminator]: what
    [String.prototype.trim] strips. *)
Definition isWhiteSpace (c : N) : bool :=
  (c =? 9) || (c =? 11) || (c =? 12) || (c =? 32) || (c =? 160)
  || (c =? 5760) || ((8192 <=? c) && (c <=? 8202)) || (c =? 8239)
  || (c =? 8287) || (c =? 12288) || (c =? 65279) || isLineTerminator c.

Fixpoint trimStart (s : jstring) : jstring :=
  match s with
  | [] => []
  | c :: t => if isWhiteSpace c then trimStart t else s
  end.

Definition trimEnd (s : jstring) : jstring := rev (trimStart (rev s)).

(** [s.trim()] *)
Definition trim (s : jstring) : jstring := trimEnd (trimStart s).

(** JavaScript truthiness of a string: non-empty. *)
Definition truthy (s : jstring) : bool :=
  match s with [] => false | _ :: _ => true end.

(** [a === b] on strings. *)
Fixpoint eqs (a b : jstring) : bool :=
  match a, b with
  | [], [] => true
  | x :: a', y :: b' => (x =? y) && eqs a' b'
  | _, _ => false
  end.

(** [list.includes(x)] on an array of strings. *)
Definition includesItem (l : list jstring) (x : jstring) : bool :=
  existsb (eqs x) l.

(** [choice === label], where a dismissed prompt gives [undefined]. *)
Definition chose (choice : option jstring) (label : jstring) : bool :=
  match choice with
  | Some c => eqs c label
  | None => false
  end.

(** [s.startsWith(p)] *)
Fixpoint startsWith (s p : jstring) {struct p} : bool :=
  match p, s with
  | [], _ => true
  | _ :: _, [] => false
  | a :: p', c :: s' => (c =? a) && startsWith s' p'
  end.

(** [s.endsWith(p)] *)
Definition endsWith (s p : jstring) : bool := startsWith (rev s) (rev p).

(** [s.includes(p)] *)
Fixpoint includes (s p : jstring) : bool :=
  startsWith s p ||
  match s with
  | [] => false
  | _ :: t => includes t p
  end.

(** [s.replace(pat, repl)] for a string pattern: the first occurrence
    only. *)
Fixpoint replace (s pat repl : jstring) : jstring :=
  if startsWith s pat then repl ++ drop (length pat) s
  else match s with
       | [] => []
       | c :: t => c :: replace t pat repl
       end.

(** [s.split(sep)] for a one-character separator. *)
Fixpoint split (s : jstring) (sep : N) : list jstring :=
  match s with
  | [] => [[]]
  | c :: t =>
      if c =? sep then [] :: split t sep
      else match split t sep with
           | h :: r => (c :: h) :: r
           | [] => [[c]]
           end
  end.

(** [parts.join(sep)] *)
Fixpoint join (parts : list jstring) (sep : jstring) : jstring :=
  match parts with
  | [] => []
  | [p] => p
  | p :: rest => p ++ sep ++ join rest sep
  end.

Definition LF : N := 10.

End JS.
Export JS.

(** ** The two regular expressions of [executeGitFlowCommand] *)

Module Regex.

(** The lazy group [(.+?)] followed by [(?:\n|$)], after [acc] has been
    consumed by the group: stop as soon as the input ends or a line
    feed follows; otherwise the next unit has to be matched by [.],
    which no line terminator is. *)
Fixpoint lazyDots (acc rest : jstring) : option jstring :=
  match rest with
  | [] => Some acc
  | c :: rest' =>
      if c =? LF then Some acc
      else if isLineTerminator c then None
      else lazyDots (acc ++ [c]) rest'
  end.

(** [/Error: (.+?)(?:\n|$)/] tried at the start of [s]: the capture
    group when it matches there. *)
Definition errorAt (s : jstring) : option jstring :=
  if startsWith s (js "Error: ") then
    match drop 7 s with
    | [] => None
    | c :: rest => if isLineTerminator c then None else lazyDots [c] rest
    end
  else None.

(** [errorMessage.match(/Error: (.+?)(?:\n|$)/)]: the leftmost position
    where the expression matches; the result is capture group 1. *)
Fixpoint matchError (s : jstring) : option jstring :=
  match errorAt s with
  | Some m => Some m
  | None => match s with
            | [] => None
            | _ :: t => matchError t
            end
  end.

(** The greedy class [[^\n]+]: what is left after the longest run of
    units other than line feed. *)
Fixpoint skipLine (s : jstring) : jstring :=
  match s with
  | [] => []
  | c :: t => if c =? LF then s else skipLine t
  end.

(** [errorMessage.replace(/^Command failed: [^\n]+\n?/, '')] *)
Definition stripCommandFailed (s : jstring) : jstring :=
  if startsWith s (js "Command failed: ") then
    match drop 16 s with
    | [] => s
    | c :: t =>
        if c =? LF then s
        else match skipLine t with
             | d :: rest => if d =? LF then rest else d :: rest
             | [] => []
             end
    end
  else s.

End Regex.
Export Regex.

(** ** Errors, the environment and the extension's state *)

(** A JavaScript [Error] carries its message. *)
Inductive error := Error (message : jstring).

Definition message (e : error) : jstring :=
  match e with Error m => m end.

(** [error.toString()] of an [Error]. *)
Definition toString (e : error) : jstring :=
  match message e with
  | [] => js "Error"
  | m => js "Error: " ++ m
  end.

(** A call either returns or throws (a promise resolves or rejects). *)
Inductive outcome (A : Type) :=
| Returned (a : A)
| Thrown (e : error).
Arguments Returned {A} a.
Arguments Thrown {A} e.

(** What the extension shows or asks, in order. *)
Inductive uiEvent :=
| InformationMessage (text : jstring)
| ErrorMessage (text : jstring) (items : list jstring)
| WarningMessage (text : jstring) (items : list jstring)
| InputBox (prompt value : jstring)
| OpenExternal (url : jstring)
| TerminalSendText (name text : jstring)
| ConsoleError (text : jstring).

(** The hosting environment during one operation. [workspaceFolders]
    holds the [fsPath] of each folder ([undefined] is the empty list);
    [execAsync cmd cwd] is the result of the child process (its
    [stdout] and [stderr], or the rejection); the settings of section
    [gitFlowNext] are read through their TypeScript types; [pickItem]
    and [inputBox] are the user's answers ([None] is a dismissed
    prompt). A [World] is the environment at one moment: a child
    process that changes the repository leaves another [World] for the
    processes that follow it. *)
Record World := {
  workspaceFolders : list jstring;
  execAsync : jstring → option jstring → outcome (jstring * jstring);
  platform : jstring;
  configString : jstring → option jstring;
  configBoolean : jstring → option bool;
  pickItem : jstring → list jstring → option jstring;
  inputBox : jstring → jstring → option jstring
}.

(** What the extension writes: the context keys set through
    [setContext], the declined-installation list of [workspaceState],
    the user interface events and the refreshes of the tree view. *)
Record State := {
  contextValues : gmap jstring bool;
  declinedInstallations : list jstring;
  shown : list uiEvent;
  treeRefreshes : nat
}.

(** Asynchronous functions: state passing with exceptions; the state
    written before a [throw] is kept. *)
Definition M (A : Type) : Type := State → outcome A * State.

#[global] Instance M_ret : MRet M := λ A a s, (Returned a, s).
#[global] Instance M_bind : MBind M := λ A B f c s,
  match c s with
  | (Returned a, s') => f a s'
  | (Thrown e, s') => (Thrown e, s')
  end.

Definition throw {A} (e : error) : M A := λ s, (Thrown e, s).

(** [try { c } catch (error) { h error }] *)
Definition try_catch {A} (c : M A) (h : error → M A) : M A := λ s,
  match c s with
  | (Returned a, s') => (Returned a, s')
  | (Thrown e, s') => h e s'
  end.

(** An awaited call whose promise settles with [o]. *)
Definition await {A} (o : outcome A) : M A := λ s, (o, s).

Definition when (b : bool) (c : M unit) : M unit :=
  if b then c else mret tt.

Definition show (e : uiEvent) : M unit := λ s,
  (Returned tt,
   {| contextValues := contextValues s;
      declinedInstallations := declinedInstallations s;
      shown := shown s ++ [e];
      treeRefreshes := treeRefreshes s |}).

(** [vscode.commands.executeCommand('setContext', key, value)] *)
Definition setContext (key : jstring) (value : bool) : M unit := λ s,
  (Returned tt,
   {| contextValues := <[key := value]> (contextValues s);
      declinedInstallations := declinedInstallations s;
      shown := shown s;
      treeRefreshes := treeRefreshes s |}).

(** [treeDataProvider.refresh()] *)
Definition refresh : M unit := λ s,
  (Returned tt,
   {| contextValues := contextValues s;
      declinedInstallations := declinedInstallations s;
      shown := shown s;
      treeRefreshes := S (treeRefreshes s) |}).

(** [config.get<string>(key, dflt)] and [config.get<boolean>(key, dflt)] *)
Definition get_string (w : World) (key dflt : jstring) : jstring :=
  default dflt (configString w key).
Definition get_boolean (w : World) (key : jstring) (dflt : bool) : bool :=
  default dflt (configBoolean w key).
Arguments get_string : simpl never.
Arguments get_boolean : simpl never.

(** ** Branch kinds and the classifier *)

Inductive BranchType :=
| feature | release | hotfix | support | bugfix | main | develop | unknown.

#[global] Instance BranchType_eq_dec : EqDecision BranchType.
Proof. solve_decision. Defined.

Record BranchInfo := {
  type : BranchType;
  name : jstring;
  fullName : jstring
}.

(** The spelling of a kind in the source. *)
Definition typeName (k : BranchType) : jstring :=
  match k with
  | feature => js "feature" | release => js "release"
  | hotfix => js "hotfix" | support => js "support"
  | bugfix => js "bugfix" | main => js "main"
  | develop => js "develop" | unknown => js "unknown"
  end.

Definition topicTypes : list BranchType :=
  [feature; release; hotfix; support; bugfix].

(** The prefix of a topic kind: its name and a slash. *)
Definition prefix (k : BranchType) : jstring := typeName k ++ js "/".

(** The conditional of [getCurrentBranch] on [branchName]. *)
Definition branchInfoOf (branchName : jstring) : BranchInfo :=
  if startsWith branchName (js "feature/") then
    {| type := feature;
       name := replace branchName (js "feature/") [];
       fullName := branchName |}
  else if startsWith branchName (js "release/") then
    {| type := release;
       name := replace branchName (js "release/") [];
       fullName := branchName |}
  else if startsWith branchName (js "hotfix/") then
    {| type := hotfix;
       name := replace branchName (js "hotfix/") [];
       fullName := branchName |}
  else if startsWith branchName (js "support/") then
    {| type := support;
       name := replace branchName (js "support/") [];
       fullName := branchName |}
  else if startsWith branchName (js "bugfix/") then
    {| type := bugfix;
       name := replace branchName (js "bugfix/") [];
       fullName := branchName |}
  else if eqs branchName (js "main") || eqs branchName (js "master") then
    {| type := main; name := branchName; fullName := branchName |}
  else if eqs branchName (js "develop") then
    {| type := develop; name := branchName; fullName := branchName |}
  else
    {| type := unknown; name := branchName; fullName := branchName |}.

Definition noWorkspace : error :=
  Error (js "No workspace folder open. Please open a git repository folder.").
Definition notInRepository : error := Error (js "Not in a git repository").

(** [getCurrentBranch]: it only reads the environment. *)
Definition getCurrentBranch (w : World) : outcome BranchInfo :=
  match workspaceFolders w with
  | [] => Thrown noWorkspace
  | workspacePath :: _ =>
      match execAsync w (js "git branch --show-current") (Some workspacePath) with
      | Returned (stdout, _) =>
          let branchName := trim stdout in
          Returned (branchInfoOf branchName)
      | Thrown _ => Thrown notInRepository
      end
  end.

(** ** Installation checks and the declined list *)

Definition getCurrentRepoPath (w : World) : option jstring :=
  head (workspaceFolders w).

(** [hasDeclinedInstallation]; [!repoPath] holds for [undefined] and
    for the empty path. *)
Definition hasDeclinedInstallation (w : World) : M bool := λ s,
  match getCurrentRepoPath w with
  | None => (Returned false, s)
  | Some repoPath =>
      if negb (truthy repoPath) then (Returned false, s)
      else (Returned (includesItem (declinedInstallations s) repoPath), s)
  end.

(** [markInstallationDeclined] *)
Definition markInstallationDeclined (w : World) : M unit := λ s,
  match getCurrentRepoPath w with
  | None => (Returned tt, s)
  | Some repoPath =>
      if negb (truthy repoPath) then (Returned tt, s)
      else if includesItem (declinedInstallations s) repoPath then (Returned tt, s)
      else (Returned tt,
            {| contextValues := contextValues s;
               declinedInstallations := declinedInstallations s ++ [repoPath];
               shown := shown s;
               treeRefreshes := treeRefreshes s |})
  end.

Definition succeeds {A} (o : outcome A) : bool :=
  match o with Returned _ => true | Thrown _ => false end.

Definition isGitFlowNextInstalled (w : World) : bool :=
  succeeds (execAsync w (js "git flow version") None).

Definition isHomebrewInstalled (w : World) : bool :=
  succeeds (execAsync w (js "brew --version") None).

Definition isGitFlowInitialized (w : World) : bool :=
  match workspaceFolders w with
  | [] => false
  | workspacePath :: _ =>
      match execAsync w
              (js "git config --get gitflow.branch.master || git config --get gitflow.branch.main")
              (Some workspacePath) with
      | Returned (stdout, _) => truthy (trim stdout)
      | Thrown _ => false
      end
  end.

(** A prompt with buttons: it is shown and the user's pick comes back. *)
Definition showErrorMessage (w : World) (text : jstring) (items : list jstring)
  : M (option jstring) :=
  show (ErrorMessage text items) ;; mret (pickItem w text items).

Definition showWarningMessage (w : World) (text : jstring) (items : list jstring)
  : M (option jstring) :=
  show (WarningMessage text items) ;; mret (pickItem w text items).

Definition showInputBox (w : World) (prompt value : jstring)
  : M (option jstring) :=
  show (InputBox prompt value) ;; mret (inputBox w prompt value).

Definition notInstalled : error := Error (js "git-flow-next is not installed").

Definition installationUrl : jstring :=
  js "https://github.com/gittower/git-flow-next#installation".

Definition requiredText : jstring :=
  js "git-flow-next is required to run this command but is not installed.".

(** The branch of [executeGitFlowCommand] taken when the tool is not
    installed; every path through it throws. *)
Definition refuseNotInstalled {A} (w : World) : M A :=
  declined ← hasDeclinedInstallation w;
  if (declined : bool) then
    throw (Error (js "git-flow-next is not installed and installation was declined for this repository"))
  else if eqs (platform w) (js "darwin") then
    choice ← showErrorMessage w requiredText
               [js "Install via Homebrew"; js "Show Instructions"; js "Not Now"];
    if chose choice (js "Install via Homebrew") then
      if negb (isHomebrewInstalled w) then
        installBrew ← showWarningMessage w
          (js "Homebrew is not installed. Would you like to see installation instructions?")
          [js "Yes"; js "No"];
        when (chose installBrew (js "Yes"))
             (show (OpenExternal (js "https://brew.sh"))) ;;
        throw notInstalled
      else
        show (TerminalSendText (js "Git Flow Next Installation")
                (js "brew install gittower/tap/git-flow-next")) ;;
        show (InformationMessage
                (js "Installing git-flow-next via Homebrew. Please wait for the installation to complete, then try your command again.")) ;;
        throw (Error (js "git-flow-next installation in progress"))
    else if chose choice (js "Show Instructions") then
      show (OpenExternal installationUrl) ;; throw notInstalled
    else if chose choice (js "Not Now") then
      markInstallationDeclined w ;; throw notInstalled
    else throw notInstalled
  else
    choice ← showErrorMessage w requiredText
               [js "Show Installation Instructions"; js "Not Now"];
    if chose choice (js "Show Installation Instructions") then
      show (OpenExternal installationUrl) ;; throw notInstalled
    else if chose choice (js "Not Now") then
      markInstallationDeclined w ;; throw notInstalled
    else throw notInstalled.

(** ** Running the external tool *)

(** The message computed in the [catch] of [executeGitFlowCommand] from
    the rejection of [execAsync]. *)
Definition extractErrorMessage (raw : jstring) : jstring :=
  match matchError raw with
  | Some errorMatch => errorMatch
  | None => trim (stripCommandFailed raw)
  end.

(** [error.message || error.toString()] *)
Definition rawMessage (e : error) : jstring :=
  if truthy (message e) then message e else toString e.

Definition executeGitFlowCommand (w : World) (command : jstring)
    (args : list jstring) (showOutput showError : bool) : M jstring :=
  if negb (isGitFlowNextInstalled w) then refuseNotInstalled w
  else
    match workspaceFolders w with
    | [] => throw noWorkspace
    | workspacePath :: _ =>
        let fullCommand := js "git flow " ++ command ++ js " " ++ join args (js " ") in
        try_catch
          ('(stdout, stderr) ← await (execAsync w fullCommand (Some workspacePath));
           when (truthy stderr && showError)
                (show (ConsoleError (js "Git Flow Error: " ++ stderr))) ;;
           when (showOutput && truthy (trim stdout))
                (show (InformationMessage (js "Git Flow: " ++ trim stdout))) ;;
           mret stdout)
          (λ error,
             let errorMessage := extractErrorMessage (rawMessage error) in
             when (showError && truthy errorMessage)
                  (show (ErrorMessage (js "Git Flow: " ++ errorMessage) [])) ;;
             throw error)
    end.

(** ** Branch lists *)

(** The pipeline both [getBranchList] functions apply to the output of
    [git flow <type> list]: split in lines, drop blank lines and header
    lines such as [Feature branches:], trim. *)
Definition branchLines (output : jstring) : list jstring :=
  map trim
    (filter (λ line, endsWith (trim line) (js ":") = false)
       (filter (λ line, truthy (trim line) = true)
          (split output LF))).

(** [getBranchList] of [activate]. *)
Definition getBranchList (w : World) (type : jstring) : M (list jstring) :=
  try_catch
    (output ← executeGitFlowCommand w (type ++ js " list") [] false false;
     mret (branchLines output))
    (λ _, mret []).

(** [GitFlowTreeDataProvider.getBranchList]: it only reads the
    environment. *)
Definition treeGetBranchList (w : World) (type : jstring) : list jstring :=
  match workspaceFolders w with
  | [] => []
  | workspacePath :: _ =>
      match execAsync w (js "git flow " ++ type ++ js " list") (Some workspacePath) with
      | Returned (stdout, _) => branchLines stdout
      | Thrown _ => []
      end
  end.

(** ** Context keys and the state refresh *)

Module contextKeys.
Definition isOnTopicBranch := js "gitFlowNext.isOnTopicBranch".
Definition isOnFeatureBranch := js "gitFlowNext.isOnFeatureBranch".
Definition isOnReleaseBranch := js "gitFlowNext.isOnReleaseBranch".
Definition isOnHotfixBranch := js "gitFlowNext.isOnHotfixBranch".
Definition isOnSupportBranch := js "gitFlowNext.isOnSupportBranch".
Definition isOnBugfixBranch := js "gitFlowNext.isOnBugfixBranch".
Definition featuresExist := js "gitFlowNext.featuresExist".
Definition releasesExist := js "gitFlowNext.releasesExist".
Definition hotfixesExist := js "gitFlowNext.hotfixesExist".
Definition supportsExist := js "gitFlowNext.supportsExist".
Definition bugfixesExist := js "gitFlowNext.bugfixesExist".
Definition isInstalled := js "git-flow-next.isInstalled".
Definition isInitialized := js "git-flow-next.isInitialized".

(** [Object.values(contextKeys)] *)
Definition values : list jstring :=
  [isOnTopicBranch; isOnFeatureBranch; isOnReleaseBranch; isOnHotfixBranch;
   isOnSupportBranch; isOnBugfixBranch; featuresExist; releasesExist;
   hotfixesExist; supportsExist; bugfixesExist; isInstalled; isInitialized].
End contextKeys.

(** [for (const key of keys) await setContext(key, false)] *)
Fixpoint resetContexts (keys : list jstring) : M unit :=
  match keys with
  | [] => mret tt
  | key :: rest => setContext key false ;; resetContexts rest
  end.

Definition isType (b : BranchInfo) (k : BranchType) : bool :=
  bool_decide (type b = k).

(** [list.length > 0] *)
Definition nonEmpty {A} (l : list A) : bool := (0 <? length l)%nat.

(** [updateContextVariables]. The five [getBranchList] calls of
    [Promise.all] are started in the order of the array and each of
    them handles its own failure, so [Promise.all] never rejects; they
    are run here one after the other. How they interleave decides only
    which installation prompts are shown, never what a call returns. *)
Definition updateContextVariables (w : World) : M unit :=
  try_catch
    (setContext contextKeys.isInstalled (isGitFlowNextInstalled w) ;;
     setContext contextKeys.isInitialized (isGitFlowInitialized w) ;;
     refresh ;;
     branchInfo ← await (getCurrentBranch w);
     setContext contextKeys.isOnTopicBranch
       (negb (isType branchInfo main) && negb (isType branchInfo develop)
        && negb (isType branchInfo unknown)) ;;
     setContext contextKeys.isOnFeatureBranch (isType branchInfo feature) ;;
     setContext contextKeys.isOnReleaseBranch (isType branchInfo release) ;;
     setContext contextKeys.isOnHotfixBranch (isType branchInfo hotfix) ;;
     setContext contextKeys.isOnSupportBranch (isType branchInfo support) ;;
     setContext contextKeys.isOnBugfixBranch (isType branchInfo bugfix) ;;
     features ← getBranchList w (js "feature");
     releases ← getBranchList w (js "release");
     hotfixes ← getBranchList w (js "hotfix");
     supports ← getBranchList w (js "support");
     bugfixes ← getBranchList w (js "bugfix");
     setContext contextKeys.featuresExist (nonEmpty features) ;;
     setContext contextKeys.releasesExist (nonEmpty releases) ;;
     setContext contextKeys.hotfixesExist (nonEmpty hotfixes) ;;
     setContext contextKeys.supportsExist (nonEmpty supports) ;;
     setContext contextKeys.bugfixesExist (nonEmpty bugfixes))
    (λ _, resetContexts contextKeys.values).

(** The context key that publishes the existence of branches of a
    topic kind. *)
Definition existKey (k : BranchType) : jstring :=
  match k with
  | feature => contextKeys.featuresExist
  | release => contextKeys.releasesExist
  | hotfix => contextKeys.hotfixesExist
  | support => contextKeys.supportsExist
  | _ => contextKeys.bugfixesExist
  end.

(** The context key that publishes that the current branch is of a
    topic kind. *)
Definition isOnKey (k : BranchType) : jstring :=
  match k with
  | feature => contextKeys.isOnFeatureBranch
  | release => contextKeys.isOnReleaseBranch
  | hotfix => contextKeys.isOnHotfixBranch
  | support => contextKeys.isOnSupportBranch
  | _ => contextKeys.isOnBugfixBranch
  end.

(** ** Refresh on save *)

Module Timers.

(** The timers of the event loop: the time (in milliseconds) at which
    each pending [() => updateContextVariables()] is due, in the order
    of the [setTimeout] calls. No handler of the extension cancels a
    timer. *)
Definition timers := list N.

(** [setTimeout(callback, delay)] at time [now]. *)
Definition setTimeout (now delay : N) (pending : timers) : timers :=
  pending ++ [now + delay].

(** The [onDidSaveTextDocument] handler, run at time [now] for a
    document saved under [fileName]. *)
Definition onDidSaveTextDocument (now : N) (fileName : jstring)
    (pending : timers) : timers :=
  if includes fileName (js ".git/") || endsWith fileName (js ".gitignore")
  then setTimeout now 1000 pending
  else pending.

(** The timers pending after a sequence of saves [(time, fileName)]:
    each of them runs [updateContextVariables] once when it is due. *)
Definition refreshesAfter (saves : list (N * jstring)) : timers :=
  foldl (λ pending save, onDidSaveTextDocument (fst save) (snd save) pending)
        [] saves.

(** The event loop runs the callback of every pending timer,
    [() => updateContextVariables()], when it is due. *)
Definition fire (w : World) (pending : timers) (s : State) : State :=
  foldl (λ s _, snd (updateContextVariables w s)) s pending.

End Timers.

(** ** Argument resolvers *)

Inductive operation := finish | update.

Definition operationName (op : operation) : jstring :=
  match op with finish => js "finish" | update => js "update" end.

(** [getMergeStrategy] *)
Definition getMergeStrategy (w : World) (branchType : jstring)
    (op : operation) : list jstring :=
  let strategy :=
    get_string w (branchType ++ js "." ++ operationName op ++ js "Strategy")
               (js "merge") in
  if eqs strategy (js "use-git-config") || negb (truthy strategy) then []
  else
    match op with
    | finish =>
        if eqs strategy (js "rebase") then [js "--rebase"]
        else if eqs strategy (js "squash") then [js "--squash"]
        else if eqs strategy (js "merge") then []
        else []
    | update =>
        if eqs strategy (js "rebase") then [js "--rebase"]
        else if eqs strategy (js "merge") then []
        else []
    end.

(** [getFastForwardOptions] *)
Definition getFastForwardOptions (w : World) (branchType : jstring)
  : list jstring :=
  let fastForward :=
    get_string w (branchType ++ js ".fastForward") (js "no-ff") in
  if eqs fastForward (js "use-git-config") || negb (truthy fastForward) then []
  else if eqs fastForward (js "no-ff") then [js "--no-ff"]
  else if eqs fastForward (js "ff") then [js "--ff"]
  else [].

(** [getPreserveMergesOption] *)
Definition getPreserveMergesOption (w : World) (branchType : jstring)
  : list jstring :=
  let preserveMerges :=
    get_boolean w (branchType ++ js ".preserveMerges") false in
  if preserveMerges then [js "--preserve-merges"] else [].

(** [getTagOptions]; [branchName] is [None] when the argument is
    omitted. The pushes onto [options] are the concatenations. *)
Definition getTagOptions (w : World) (branchType : jstring)
    (branchName : option jstring) : M (list jstring) :=
  let createTag := get_boolean w (branchType ++ js ".createTag") false in
  let signTags := get_boolean w (js "signTags") false in
  let gpgKey := get_string w (js "gpgSigningKey") [] in
  let tagPrefix := get_string w (branchType ++ js ".tagPrefix") [] in
  let promptForMessage := get_boolean w (js "promptForTagMessage") false in
  if createTag then
    let options := [js "--tag"] in
    let options :=
      if truthy tagPrefix && truthy (trim tagPrefix)
      then options ++ [js "--tagprefix"; trim tagPrefix] else options in
    options ←
      (match branchName with
       | Some branchName =>
           if promptForMessage && truthy branchName then
             tagMessage ← showInputBox w (js "Enter tag message")
                            (js "Release " ++ branchName);
             match tagMessage with
             | Some tagMessage =>
                 if truthy tagMessage && truthy (trim tagMessage)
                 then mret (options ++ [js "--message"; trim tagMessage])
                 else mret options
             | None => mret options
             end
           else mret options
       | None => mret options
       end);
    let options :=
      if signTags then
        let options := options ++ [js "--sign"] in
        if truthy gpgKey && truthy (trim gpgKey)
        then options ++ [js "--signingkey"; trim gpgKey] else options
      else options in
    mret options
  else mret [js "--notag"].

(** [getBranchRetentionOptions] *)
Definition getBranchRetentionOptions (w : World) (branchType : jstring)
  : list jstring :=
  let keepBranch := get_string w (branchType ++ js ".keepBranch") (js "delete") in
  let forceDelete := get_boolean w (js "forceDelete") false in
  let options :=
    if negb (eqs keepBranch (js "use-git-config")) then
      if eqs keepBranch (js "keep") then [js "--keep"]
      else if eqs keepBranch (js "keep-local") then [js "--keeplocal"]
      else if eqs keepBranch (js "keep-remote") then [js "--keepremote"]
      else if eqs keepBranch (js "delete") then []
      else []
    else [] in
  if forceDelete then options ++ [js "--force-delete"] else options.

(** ** Start points, fetching and the tool's configuration *)

(** [getStartPoint]: the configured value is passed on as it is, not
    trimmed. *)
Definition getStartPoint (w : World) (branchType : jstring) : list jstring :=
  let startPoint := get_string w (branchType ++ js ".startPoint") [] in
  if truthy startPoint && truthy (trim startPoint) then [startPoint] else [].

(** [shouldAutoUpdate]; no function of the extension calls it. *)
Definition shouldAutoUpdate (w : World) (branchType : jstring) : bool :=
  get_boolean w (branchType ++ js ".autoUpdate") false.

(** [shouldFetchBeforeStart] *)
Definition shouldFetchBeforeStart (w : World) : list jstring :=
  let shouldFetch := get_boolean w (js "fetchBeforeStart") false in
  if shouldFetch then [js "--fetch"] else [].

(** [try { body } catch (error) { }] *)
Definition ignoring (body : M unit) : M unit :=
  try_catch body (λ _, mret tt).

(** [configureRemote]: a failure of [git config] is ignored. *)
Definition configureRemote (w : World) : M unit :=
  let remoteName := get_string w (js "remoteName") (js "origin") in
  match workspaceFolders w with
  | [] => mret tt
  | workspacePath :: _ =>
      ignoring
        (await (execAsync w (js "git config gitflow.origin " ++ remoteName)
                  (Some workspacePath)) ;;
         mret tt)
  end.

(** A boolean inside a template string. *)
Definition booleanText (b : bool) : jstring :=
  if b then js "true" else js "false".

(** [configureDeleteRemote] *)
Definition configureDeleteRemote (w : World) (branchType : jstring) : M unit :=
  let deleteRemote := get_boolean w (branchType ++ js ".deleteRemote") false in
  match workspaceFolders w with
  | [] => mret tt
  | workspacePath :: _ =>
      ignoring
        (await (execAsync w
                  (js "git config gitflow.branch." ++ branchType
                   ++ js ".deleteRemote " ++ booleanText deleteRemote)
                  (Some workspacePath)) ;;
         mret tt)
  end.

(** ** Prompts of the command handlers *)

(** [promptForInput]: an input box without an initial value. Its
    [validateInput] keeps the user from accepting a blank value; the
    answer of the environment is taken as it comes, so every statement
    below also covers the answers the validation rules out. *)
Definition promptForInput (w : World) (prompt : jstring) : M (option jstring) :=
  showInputBox w prompt [].

(** [vscode.window.showQuickPick(items, { placeHolder })] *)
Definition showQuickPick (w : World) (items : list jstring)
    (placeHolder : jstring) : M (option jstring) :=
  mret (pickItem w placeHolder items).

(** [showBranchSelection] *)
Definition showBranchSelection (w : World) (branches : list jstring)
    (prompt : jstring) : M (option jstring) :=
  match branches with
  | [] => show (InformationMessage (js "No branches found")) ;; mret None
  | _ :: _ => showQuickPick w branches prompt
  end.

(** A prompt answered with a non-empty string: [if (answer)]. *)
Definition given (answer : option jstring) : option jstring :=
  match answer with
  | Some a => if truthy a then Some a else None
  | None => None
  end.

(** ** The command handlers of the five topic kinds

    The handlers of the five kinds are the same text up to the name of
    the kind (and the noun of two prompts); [k] stands for the kind. *)

(** [name] for features and bugfixes, [version] for the others. *)
Definition nounOf (k : BranchType) : jstring :=
  match k with
  | feature | bugfix => js "name"
  | _ => js "version"
  end.

(** The branch lines a handler offers for selection: those of
    [branchLines] without the lines that hold [No <kind> branches]. *)
Definition selectableLines (k : BranchType) (output : jstring) : list jstring :=
  map trim
    (filter (λ line, includes line (js "No " ++ typeName k ++ js " branches") = false)
       (filter (λ line, endsWith (trim line) (js ":") = false)
          (filter (λ line, truthy (trim line) = true)
             (split output LF)))).

(** [git-flow-next.<kind>.start] *)
Definition startCommand (k : BranchType) (w : World) : M unit :=
  ignoring
    (featureName ← promptForInput w (js "Enter " ++ typeName k ++ js " " ++ nounOf k);
     match given featureName with
     | None => mret tt
     | Some featureName =>
         useCustomBase ← showQuickPick w [js "No"; js "Yes"]
                           (js "Start from a specific commit, tag, or branch?");
         baseArgs ←
           (if chose useCustomBase (js "Yes") then
              base ← showInputBox w
                       (js "Enter base commit, tag, or branch (leave empty to use default)")
                       [];
              match base with
              | Some base =>
                  if truthy base && truthy (trim base) then mret [trim base]
                  else mret []
              | None => mret []
              end
            else mret []);
         configureRemote w ;;
         let startPointArgs :=
           if nonEmpty baseArgs then baseArgs else getStartPoint w (typeName k) in
         let fetchArgs := shouldFetchBeforeStart w in
         executeGitFlowCommand w (typeName k ++ js " start")
           ([featureName] ++ startPointArgs ++ fetchArgs) true true ;;
         updateContextVariables w
     end).

(** The arguments of [<kind> finish] after the branch name. *)
Definition finishArgs (w : World) (k : BranchType) (tagArgs : list jstring)
  : list jstring :=
  getMergeStrategy w (typeName k) finish
  ++ getFastForwardOptions w (typeName k)
  ++ getPreserveMergesOption w (typeName k)
  ++ tagArgs
  ++ getBranchRetentionOptions w (typeName k).

(** [git-flow-next.<kind>.finish] *)
Definition finishCommand (k : BranchType) (w : World) : M unit :=
  ignoring
    (configureRemote w ;;
     configureDeleteRemote w (typeName k) ;;
     branchInfo ← await (getCurrentBranch w);
     if isType branchInfo k then
       tagArgs ← getTagOptions w (typeName k) (Some (name branchInfo));
       executeGitFlowCommand w (typeName k ++ js " finish")
         ([name branchInfo] ++ finishArgs w k tagArgs) true true ;;
       updateContextVariables w
     else
       output ← executeGitFlowCommand w (typeName k ++ js " list") [] false true;
       match selectableLines k output with
       | [] =>
           show (InformationMessage
                   (js "No " ++ typeName k ++ js " branches available to finish"))
       | features =>
           selected ← showBranchSelection w features
                        (js "Select " ++ typeName k ++ js " to finish");
           match given selected with
           | Some selected =>
               tagArgs ← getTagOptions w (typeName k) (Some selected);
               executeGitFlowCommand w (typeName k ++ js " finish")
                 ([selected] ++ finishArgs w k tagArgs) true true ;;
               mret tt
           | None => mret tt
           end ;;
           updateContextVariables w
       end).

(** [git-flow-next.feature.list]: [features.map(f => `"${f}"`).join(', ')] *)
Definition featureListCommand (w : World) : M unit :=
  ignoring
    (output ← executeGitFlowCommand w (js "feature list") [] false true;
     match branchLines output with
     | [] => show (InformationMessage (js "Git Flow: No feature branches found"))
     | features =>
         let formattedList :=
           join (map (λ f, [34] ++ f ++ [34]) features) (js ", ") in
         show (InformationMessage (js "Git Flow: Feature branches: " ++ formattedList))
     end).

(** [git-flow-next.<kind>.list] of the four other kinds: no [try]. *)
Definition listCommand (k : BranchType) (w : World) : M unit :=
  executeGitFlowCommand w (typeName k ++ js " list") [] true true ;; mret tt.

(** [git-flow-next.<kind>.checkout] *)
Definition checkoutCommand (k : BranchType) (w : World) : M unit :=
  ignoring
    (output ← executeGitFlowCommand w (typeName k ++ js " list") [] false true;
     match selectableLines k output with
     | [] =>
         show (InformationMessage
                 (js "No " ++ typeName k ++ js " branches available to checkout"))
     | features =>
         selected ← showBranchSelection w features
                      (js "Select " ++ typeName k ++ js " to checkout");
         match given selected with
         | Some selected =>
             executeGitFlowCommand w (typeName k ++ js " checkout") [selected]
               true true ;;
             mret tt
         | None => mret tt
         end
     end).

(** [git-flow-next.<kind>.delete]; only the handler of [feature]
    refreshes the context after the deletion. *)
Definition deleteCommand (k : BranchType) (w : World) : M unit :=
  ignoring
    (output ← executeGitFlowCommand w (typeName k ++ js " list") [] false true;
     match selectableLines k output with
     | [] =>
         show (InformationMessage
                 (js "No " ++ typeName k ++ js " branches available to delete"))
     | features =>
         selected ← showBranchSelection w features
                      (js "Select " ++ typeName k ++ js " to delete");
         match given selected with
         | Some selected =>
             confirmed ← showWarningMessage w
               (js "Are you sure you want to delete " ++ typeName k ++ js " "
                ++ [34] ++ selected ++ [34] ++ js "?")
               [js "Yes"; js "No"];
             if chose confirmed (js "Yes") then
               executeGitFlowCommand w (typeName k ++ js " delete") [selected]
                 true true ;;
               match k with
               | feature => updateContextVariables w
               | _ => mret tt
               end
             else mret tt
         | None => mret tt
         end
     end).

(** [git-flow-next.<kind>.rename] *)
Definition renameCommand (k : BranchType) (w : World) : M unit :=
  ignoring
    (branchInfo ← await (getCurrentBranch w);
     if isType branchInfo k then
       if negb (truthy (name branchInfo)) || negb (truthy (trim (name branchInfo)))
       then show (ErrorMessage (js "Failed to get current branch name") [])
       else
         newName ← promptForInput w
                     (js "Enter new " ++ typeName k ++ js " " ++ nounOf k);
         match given newName with
         | Some newName =>
             executeGitFlowCommand w (typeName k ++ js " rename")
               [name branchInfo; newName] true true ;;
             mret tt
         | None => mret tt
         end
     else
       show (WarningMessage
               (js "You must be on a " ++ typeName k ++ js " branch to rename it") [])).

(** [git-flow-next.<kind>.update] *)
Definition updateCommand (k : BranchType) (w : World) : M unit :=
  ignoring
    (let strategyArgs := getMergeStrategy w (typeName k) update in
     branchInfo ← await (getCurrentBranch w);
     if isType branchInfo k then
       executeGitFlowCommand w (typeName k ++ js " update")
         ([name branchInfo] ++ strategyArgs) true true ;;
       mret tt
     else
       show (WarningMessage
               (js "You must be on a " ++ typeName k ++ js " branch to update it") [])).

(** ** The shorthand commands *)

(** [finish], [rebase], [update], [publish], [overview], [config]:
    [try { await executeGitFlowCommand(command) } catch { }]. *)
Definition plainCommand (command : jstring) (w : World) : M unit :=
  ignoring (executeGitFlowCommand w command [] true true ;; mret tt).

(** [branchInfo.type !== 'unknown' && branchInfo.type !== 'main' &&
    branchInfo.type !== 'develop'] *)
Definition onTopicBranch (branchInfo : BranchInfo) : bool :=
  negb (isType branchInfo unknown) && negb (isType branchInfo main)
  && negb (isType branchInfo develop).

(** [git-flow-next.shorthand.delete] *)
Definition shorthandDeleteCommand (w : World) : M unit :=
  ignoring
    (branchInfo ← await (getCurrentBranch w);
     if onTopicBranch branchInfo then
       confirmed ← showWarningMessage w
         (js "Are you sure you want to delete " ++ [34] ++ fullName branchInfo
          ++ [34] ++ js "?")
         [js "Yes"; js "No"];
       if chose confirmed (js "Yes") then
         executeGitFlowCommand w (js "delete") [] true true ;; mret tt
       else mret tt
     else
       show (WarningMessage (js "Cannot delete main/develop or unknown branch") [])).

(** [git-flow-next.shorthand.rename] *)
Definition shorthandRenameCommand (w : World) : M unit :=
  ignoring
    (branchInfo ← await (getCurrentBranch w);
     if onTopicBranch branchInfo then
       newName ← promptForInput w (js "Enter new branch name");
       match given newName with
       | Some newName =>
           executeGitFlowCommand w (js "rename") [newName] true true ;; mret tt
       | None => mret tt
       end
     else
       show (WarningMessage (js "Cannot rename main/develop or unknown branch") [])).

(** [git-flow-next.finish.continue] and [git-flow-next.finish.abort]:
    [flag] is [--continue] or [--abort], [verb] the word of the
    warning. *)
Definition finishControlCommand (flag verb : jstring) (w : World) : M unit :=
  ignoring
    (branchInfo ← await (getCurrentBranch w);
     if onTopicBranch branchInfo then
       executeGitFlowCommand w (typeName (type branchInfo) ++ js " finish")
         [flag] true true ;;
       updateContextVariables w
     else
       show (WarningMessage
               (js "Cannot " ++ verb ++ js " finish on main/develop or unknown branch")
               [])).

Definition finishContinueCommand : World → M unit :=
  finishControlCommand (js "--continue") (js "continue").

Definition finishAbortCommand : World → M unit :=
  finishControlCommand (js "--abort") (js "abort").

(** ** The refreshing handlers and the repository their command leaves

    [git flow <kind> finish] and [git flow feature delete] change the
    repository, and the child processes of the refresh that follows run
    in the repository they leave. In the three definitions below [w] is
    the environment up to and including the command and [after] the
    environment of that refresh; with [after] equal to [w] they are
    [finishCommand], [deleteCommand] and [finishControlCommand]. *)

(** [git-flow-next.<kind>.finish] *)
Definition finishCommandThen (k : BranchType) (w after : World) : M unit :=
  ignoring
    (configureRemote w ;;
     configureDeleteRemote w (typeName k) ;;
     branchInfo ← await (getCurrentBranch w);
     if isType branchInfo k then
       tagArgs ← getTagOptions w (typeName k) (Some (name branchInfo));
       executeGitFlowCommand w (typeName k ++ js " finish")
         ([name branchInfo] ++ finishArgs w k tagArgs) true true ;;
       updateContextVariables after
     else
       output ← executeGitFlowCommand w (typeName k ++ js " list") [] false true;
       match selectableLines k output with
       | [] =>
           show (InformationMessage
                   (js "No " ++ typeName k ++ js " branches available to finish"))
       | features =>
           selected ← showBranchSelection w features
                        (js "Select " ++ typeName k ++ js " to finish");
           match given selected with
           | Some selected =>
               tagArgs ← getTagOptions w (typeName k) (Some selected);
               executeGitFlowCommand w (typeName k ++ js " finish")
                 ([selected] ++ finishArgs w k tagArgs) true true ;;
               mret tt
           | None => mret tt
           end ;;
           updateContextVariables after
       end).

(** [git-flow-next.<kind>.delete] *)
Definition deleteCommandThen (k : BranchType) (w after : World) : M unit :=
  ignoring
    (output ← executeGitFlowCommand w (typeName k ++ js " list") [] false true;
     match selectableLines k output with
     | [] =>
         show (InformationMessage
                 (js "No " ++ typeName k ++ js " branches available to delete"))
     | features =>
         selected ← showBranchSelection w features
                      (js "Select " ++ typeName k ++ js " to delete");
         match given selected with
         | Some selected =>
             confirmed ← showWarningMessage w
               (js "Are you sure you want to delete " ++ typeName k ++ js " "
                ++ [34] ++ selected ++ [34] ++ js "?")
               [js "Yes"; js "No"];
             if chose confirmed (js "Yes") then
               executeGitFlowCommand w (typeName k ++ js " delete") [selected]
                 true true ;;
               match k with
               | feature => updateContextVariables after
               | _ => mret tt
               end
             else mret tt
         | None => mret tt
         end
     end).

(** [git-flow-next.finish.continue] and [git-flow-next.finish.abort] *)
Definition finishControlCommandThen (flag verb : jstring) (w after : World)
  : M unit :=
  ignoring
    (branchInfo ← await (getCurrentBranch w);
     if onTopicBranch branchInfo then
       executeGitFlowCommand w (typeName (type branchInfo) ++ js " finish")
         [flag] true true ;;
       updateContextVariables after
     else
       show (WarningMessage
               (js "Cannot " ++ verb ++ js " finish on main/develop or unknown branch")
               [])).

(** ** The tree view *)

Inductive TreeItemCollapsibleState := None_ | Collapsed.

(** [vscode.Command] of an item: the command and its arguments. *)
Record Command := {
  command : jstring;
  title : jstring;
  arguments : list jstring
}.

Record GitFlowTreeItem := {
  label : jstring;
  collapsibleState : TreeItemCollapsibleState;
  itemCommand : option Command;
  contextValue : option jstring
}.

(** [new GitFlowTreeItem(label, collapsibleState, command)] *)
Definition newItem (label : jstring) (state : TreeItemCollapsibleState)
    (cmd : option Command) : GitFlowTreeItem :=
  {| label := label; collapsibleState := state;
     itemCommand := cmd; contextValue := None |}.

(** [label.replace(/s$/, '')]: a final [s] is removed. *)
Definition dropFinalS (s : jstring) : jstring :=
  match rev s with
  | c :: r => if c =? 115 then rev r else s
  | [] => s
  end.

(** [String.prototype.toLowerCase] on ASCII units. *)
Definition asciiLower (s : jstring) : jstring :=
  map (λ c, if (65 <=? c) && (c <=? 90) then c + 32 else c) s.

Definition isAscii (s : jstring) : Prop := Forall (λ c, c < 128) s.

(** [GitFlowTreeDataProvider.getChildren]. Its private
    [isGitFlowNextInstalled] and [isGitFlowInitialized] are the text
    of the functions of [activate]. [toLowerCase] stands for
    [String.prototype.toLowerCase], whose table for the units beyond
    ASCII is not part of this development. *)
Definition getChildren (toLowerCase : jstring → jstring) (w : World)
    (element : option GitFlowTreeItem) : list GitFlowTreeItem :=
  if negb (isGitFlowNextInstalled w) then []
  else if negb (isGitFlowInitialized w) then []
  else
    match element with
    | None =>
        [newItem (js "Features") Collapsed None;
         newItem (js "Releases") Collapsed None;
         newItem (js "Hotfixes") Collapsed None;
         newItem (js "Bugfixes") Collapsed None;
         newItem (js "Support") Collapsed None]
    | Some element =>
        let branchType := dropFinalS (toLowerCase (label element)) in
        match treeGetBranchList w branchType with
        | [] =>
            let branchTypeName :=
              if eqs branchType (js "hotfixe") then js "hotfix"
              else if eqs branchType (js "bugfixe") then js "bugfix"
              else branchType in
            [{| label := js "No " ++ branchTypeName ++ js " branches found";
                collapsibleState := None_;
                itemCommand := None;
                contextValue := Some (js "empty") |}]
        | branches =>
            map (λ branch,
                   newItem branch None_
                     (Some {| command := js "git-flow-next." ++ branchType
                                         ++ js ".checkout";
                              title := js "Checkout Branch";
                              arguments := [branch] |}))
                branches
        end
    end.

(** ** Vocabulary of the statements *)

Definition isKeepFlag (o : jstring) : bool :=
  eqs o (js "--keep") || eqs o (js "--keeplocal") || eqs o (js "--keepremote").

(** How often an argument satisfying [p] occurs. *)
Definition occurrences (p : jstring → bool) (args : list jstring) : nat :=
  length (List.filter p args).

(** [s] begins with [Error: ], a non-empty message free of line
    terminators, and then a line feed or the end of the text. *)
Definition markerAt (s msg : jstring) : Prop :=
  ∃ rest, s = js "Error: " ++ msg ++ rest
          ∧ msg ≠ []
          ∧ Forall (λ c, isLineTerminator c = false) msg
          ∧ (rest = [] ∨ ∃ rest', rest = LF :: rest').

(** The text after the first [Error: ] of [s]. *)
Fixpoint afterFirstError (s : jstring) : option jstring :=
  if startsWith s (js "Error: ") then Some (drop 7 s)
  else match s with
       | [] => None
       | _ :: t => afterFirstError t
       end.

(** The longest prefix of [s] with no unit satisfying [stop]. *)
Fixpoint upTo (stop : N → bool) (s : jstring) : jstring :=
  match s with
  | [] => []
  | c :: t => if stop c then [] else c :: upTo stop t
  end.

(** A save that the [onDidSaveTextDocument] handler reacts to. *)
Definition triggers (save : N * jstring) : bool :=
  includes (snd save) (js ".git/") || endsWith (snd save) (js ".gitignore").

(** The initial state of the extension. *)
Definition initialState : State :=
  {| contextValues := ∅; declinedInstallations := [];
     shown := []; treeRefreshes := 0 |}.

(** An environment with one folder, nothing configured, a user who
    dismisses every prompt, and the child processes given by [run]. *)
Definition worldOf (run : jstring → outcome (jstring * jstring)) : World :=
  {| workspaceFolders := [js "/repo"];
     execAsync := λ cmd _, run cmd;
     platform := js "linux";
     configString := λ _, None;
     configBoolean := λ _, None;
     pickItem := λ _ _, None;
     inputBox := λ _ _, None |}.

(** The current branch is [feature/login]. *)
Definition onFeatureLogin : World :=
  worldOf (λ _, Returned (js "feature/login" ++ [LF], [])).

(** A detached HEAD: [git branch --show-current] prints an empty line. *)
Definition detachedHead : World := worldOf (λ _, Returned ([LF], [])).

(** Nothing is installed and every child process fails. *)
Definition plainWorld : World := worldOf (λ _, Thrown (Error [])).

(** Releases are tagged, and the configured tag prefix is spelled like
    a flag. *)
Definition prefixSpelledNotag : World :=
  {| workspaceFolders := [js "/repo"];
     execAsync := λ _ _, Returned ([], []);
     platform := js "linux";
     configString := λ key,
       if eqs key (js "release.tagPrefix") then Some (js "--notag") else None;
     configBoolean := λ key,
       if eqs key (js "release.createTag") then Some true else None;
     pickItem := λ _ _, None;
     inputBox := λ _ _, None |}.

(** No folder is open. *)
Definition noFolder : World :=
  {| workspaceFolders := [];
     execAsync := λ _ _, Returned ([], []);
     platform := js "linux";
     configString := λ _, None;
     configBoolean := λ _, None;
     pickItem := λ _ _, None;
     inputBox := λ _ _, None |}.

(** On [develop], with one feature branch; the list query of kind
    [support] fails and every other command prints nothing. *)
Definition supportFails : World :=
  worldOf (λ cmd,
    if eqs cmd (js "git flow support list ")
    then Thrown (Error (js "Command failed: git flow support list "))
    else if eqs cmd (js "git branch --show-current")
    then Returned (js "develop" ++ [LF], [])
    else if eqs cmd (js "git flow feature list ")
    then Returned (js "Feature branches:" ++ [LF] ++ js "  login" ++ [LF], [])
    else Returned ([], [])).

(** The failure text of a finish whose error line ends with a carriage
    return and a line feed. *)
Definition crlfFailure : jstring :=
  js "Command failed: git flow feature finish login" ++ [LF]
  ++ js "Error: merge conflict" ++ [13; LF].

(** The surfaced message as the specification words it: the text
    after the first [Error: ] up to the end of that line (the first
    unit satisfying [lineEnd]), and without such a marker the trimmed
    text stripped of its [Command failed: ] line. *)
Definition statedMessage (lineEnd : N → bool) (raw : jstring) : jstring :=
  match afterFirstError raw with
  | Some rest => upTo lineEnd rest
  | None => trim (stripCommandFailed raw)
  end.

(** [w] with the string setting [key] set to [value] ([None]: not
    set). *)
Definition withString (w : World) (key : jstring) (value : option jstring)
  : World :=
  {| workspaceFolders := workspaceFolders w;
     execAsync := execAsync w;
     platform := platform w;
     configString := λ k, if eqs k key then value else configString w k;
     configBoolean := configBoolean w;
     pickItem := pickItem w;
     inputBox := inputBox w |}.

(** [w] with the boolean setting [key] set to [value]. *)
Definition withBoolean (w : World) (key : jstring) (value : option bool)
  : World :=
  {| workspaceFolders := workspaceFolders w;
     execAsync := execAsync w;
     platform := platform w;
     configString := configString w;
     configBoolean := λ k, if eqs k key then value else configBoolean w k;
     pickItem := pickItem w;
     inputBox := inputBox w |}.

(** The branches a list query of [activate] finds for a kind. *)
Definition listed (w : World) (k : BranchType) : list jstring :=
  match fst (executeGitFlowCommand w (typeName k ++ js " list") [] false false
               initialState) with
  | Returned output => branchLines output
  | Thrown _ => []
  end.

(** The flags one refresh publishes, in the order of the [setContext]
    calls: a function of the environment alone. *)
Definition publishedFlags (w : World) : list (jstring * bool) :=
  [(contextKeys.isInstalled, isGitFlowNextInstalled w);
   (contextKeys.isInitialized, isGitFlowInitialized w)]
  ++ match getCurrentBranch w with
     | Returned info =>
         [(contextKeys.isOnTopicBranch,
           negb (isType info main) && negb (isType info develop)
           && negb (isType info unknown));
          (contextKeys.isOnFeatureBranch, isType info feature);
          (contextKeys.isOnReleaseBranch, isType info release);
          (contextKeys.isOnHotfixBranch, isType info hotfix);
          (contextKeys.isOnSupportBranch, isType info support);
          (contextKeys.isOnBugfixBranch, isType info bugfix);
          (contextKeys.featuresExist, nonEmpty (listed w feature));
          (contextKeys.releasesExist, nonEmpty (listed w release));
          (contextKeys.hotfixesExist, nonEmpty (listed w hotfix));
          (contextKeys.supportsExist, nonEmpty (listed w support));
          (contextKeys.bugfixesExist, nonEmpty (listed w bugfix))]
     | Thrown _ => map (λ key, (key, false)) contextKeys.values
     end.

(** Writing flags into the context store, one after the other. *)
Definition publish (flags : list (jstring * bool)) (store : gmap jstring bool)
  : gmap jstring bool :=
  foldl (λ store flag, <[fst flag := snd flag]> store) store flags.

(** The value the last flag written under [key] has. *)
Fixpoint lastWritten (flags : list (jstring * bool)) (key : jstring)
  : option bool :=
  match flags with
  | [] => None
  | flag :: rest =>
      match lastWritten rest key with
      | Some v => Some v
      | None => if eqs (fst flag) key then Some (snd flag) else None
      end
  end.

(** [c] publishes nothing: whatever state it runs in, it leaves the
    context keys and the tree view as they are. *)
Definition quiet {A} (c : M A) : Prop :=
  ∀ s, contextValues (snd (c s)) = contextValues s
       ∧ treeRefreshes (snd (c s)) = treeRefreshes s.

(** The command line [executeGitFlowCommand] runs. *)
Definition commandLine (command : jstring) (args : list jstring) : jstring :=
  js "git flow " ++ command ++ js " " ++ join args (js " ").

(** On [feature/login], nothing configured; finishing it fails with
    a merge conflict. *)
Definition finishFails : World :=
  worldOf (λ cmd,
    if eqs cmd (js "git branch --show-current")
    then Returned (js "feature/login", [])
    else if eqs cmd (js "git flow feature finish login --no-ff --notag")
    then Thrown (Error (js "Error: merge conflict"))
    else if eqs cmd (js "git flow feature finish --continue")
    then Thrown (Error (js "Error: merge conflict"))
    else Returned ([], [])).

(** Finishing [login] fails with the text [crlfFailure]. *)
Definition conflictCrlf : World :=
  worldOf (λ cmd,
    if eqs cmd (commandLine (js "feature finish") [js "login"])
    then Thrown (Error crlfFailure)
    else Returned ([], [])).

(** The tool is installed: starting the feature [v1] from [v1] prints
    [started], every other child process prints [main]. The user
    answers every prompt with a choice of [Yes] and every input box
    with [v1]. *)
Definition explicitBase : World :=
  {| workspaceFolders := [js "/repo"];
     execAsync := λ cmd _,
       if eqs cmd (js "git flow feature start v1 v1")
       then Returned (js "started", [])
       else Returned (js "main", []);
     platform := js "linux";
     configString := λ _, None;
     configBoolean := λ _, None;
     pickItem := λ _ _, Some (js "Yes");
     inputBox := λ _ _, Some (js "v1") |}.

(** Every child process prints [main]: the tool is installed and the
    repository initialised. *)
Definition initialised : World := worldOf (λ _, Returned (js "main", [])).

(** On [develop], with no topic branch of any kind: the repository
    after the only feature is finished or deleted. *)
Definition onDevelop : World :=
  worldOf (λ cmd,
    if eqs cmd (js "git branch --show-current")
    then Returned (js "develop" ++ [LF], [])
    else Returned ([], [])).

(** One feature, [login]; the user selects it and confirms. *)
Definition deletesLogin : World :=
  {| workspaceFolders := [js "/repo"];
     execAsync := λ cmd _,
       if eqs cmd (js "git flow feature list ")
       then Returned (js "  login" ++ [LF], [])
       else Returned (js "main", []);
     platform := js "linux";
     configString := λ _, None;
     configBoolean := λ _, None;
     pickItem := λ text _,
       if eqs text (js "Select feature to delete") then Some (js "login")
       else Some (js "Yes");
     inputBox := λ _ _, None |}.

(** The error of a command refused because the installation was
    declined. *)
Definition declinedError : error :=
  Error (js "git-flow-next is not installed and installation was declined for this repository").

(** The tool is missing and the user answers [Not Now]. *)
Definition notNow : World :=
  {| workspaceFolders := [js "/repo"];
     execAsync := λ _ _, Thrown (Error []);
     platform := js "linux";
     configString := λ _, None;
     configBoolean := λ _, None;
     pickItem := λ _ _, Some (js "Not Now");
     inputBox := λ _ _, None |}.

(** [c] run in [s] returns, with a result and a state that satisfy
    [Q]. *)
Definition returns {A} (c : M A) (s : State) (Q : A → State → Prop) : Prop :=
  ∃ a s', c s = (Returned a, s') ∧ Q a s'.

(** ** Proof steps *)

(** Unfold the monad. *)
Ltac run := unfold mbind, M_bind, mret, M_ret, throw, show, when; simpl.

(** Case analysis on every conditional of the goal. *)
Ltac split_ifs :=
  repeat match goal with
         | |- context [if ?b then _ else _] => destruct b eqn:?; simpl
         end.

(** Two string literals differ. *)
Ltac key_ne := let H := fresh in intros H; vm_compute in H; discriminate H.

(** ** Facts about strings *)

Section Strings.

Implicit Types s p r : jstring.

Lemma eqs_refl s : eqs s s = true.
Proof. induction s as [|c s IH]; simpl; [done|]. by rewrite N.eqb_refl. Qed.

Lemma eqs_eq s p : eqs s p = true ↔ s = p.
Proof.
  split; [|intros ->; apply eqs_refl].
  revert p; induction s as [|c s IH]; intros [|d p]; simpl; try done.
  intros [Hc Hs]%andb_true_iff. apply N.eqb_eq in Hc. f_equal; auto.
Qed.

Lemma eqs_neq s p : s ≠ p → eqs s p = false.
Proof.
  intros Hne. destruct (eqs s p) eqn:E; [|done].
  by apply eqs_eq in E.
Qed.

Lemma startsWith_app p r : startsWith (p ++ r) p = true.
Proof. induction p as [|c p IH]; simpl; [done|]. by rewrite N.eqb_refl. Qed.

Lemma startsWith_split s p :
  startsWith s p = true ↔ ∃ r, s = p ++ r.
Proof.
  split; [|intros [r ->]; apply startsWith_app].
  revert s; induction p as [|a p IH]; intros s; simpl; [by exists s|].
  destruct s as [|c s]; [done|].
  intros [Hc Hs]%andb_true_iff. apply N.eqb_eq in Hc as ->.
  destruct (IH _ Hs) as [r ->]. by exists r.
Qed.

Lemma drop_prefix p r : drop (length p) (p ++ r) = r.
Proof. induction p; simpl; auto. Qed.

Lemma replace_prefix p r : replace (p ++ r) p [] = r.
Proof.
  destruct p as [|a p]; simpl; [by destruct r|].
  by rewrite N.eqb_refl, startsWith_app, drop_prefix.
Qed.

Lemma trimStart_stable s :
  match s with [] => True | c :: _ => isWhiteSpace c = false end →
  trimStart s = s.
Proof. destruct s as [|c s]; simpl; [done|]. by intros ->. Qed.

Lemma trimStart_head s :
  match trimStart s with [] => True | c :: _ => isWhiteSpace c = false end.
Proof.
  induction s as [|c s IH]; simpl; [done|].
  destruct (isWhiteSpace c) eqn:E; [done|]. simpl. done.
Qed.

Lemma trimStart_idem s : trimStart (trimStart s) = trimStart s.
Proof. apply trimStart_stable, trimStart_head. Qed.

Lemma trimStart_snoc s c :
  isWhiteSpace c = false → ∃ s', trimStart (s ++ [c]) = s' ++ [c].
Proof.
  intros Hc. induction s as [|d s IH]; simpl.
  - rewrite Hc. by exists [].
  - destruct (isWhiteSpace d); [done|]. by exists (d :: s).
Qed.

Lemma trimEnd_idem s : trimEnd (trimEnd s) = trimEnd s.
Proof. unfold trimEnd. by rewrite rev_involutive, trimStart_idem. Qed.

Lemma trimEnd_head s :
  match s with [] => True | c :: _ => isWhiteSpace c = false end →
  match trimEnd s with [] => True | c :: _ => isWhiteSpace c = false end.
Proof.
  destruct s as [|c s]; [done|]. intros Hc. unfold trimEnd. simpl.
  destruct (trimStart_snoc (rev s) c Hc) as [s' ->].
  rewrite rev_app_distr. simpl. done.
Qed.

(** Trimming a trimmed string changes nothing. *)
Lemma trim_idem s : trim (trim s) = trim s.
Proof.
  unfold trim at 1.
  rewrite (trimStart_stable (trim s)); [apply trimEnd_idem|].
  apply trimEnd_head, trimStart_head.
Qed.

(** A trimmed string neither begins nor ends with white space. *)
Lemma trim_ends s :
  match trim s with [] => True | c :: _ => isWhiteSpace c = false end
  ∧ match rev (trim s) with [] => True | c :: _ => isWhiteSpace c = false end.
Proof.
  split; [apply trimEnd_head, trimStart_head|].
  unfold trim, trimEnd. rewrite rev_involutive. apply trimStart_head.
Qed.

(** Splitting loses nothing: joining the lines gives the text back,
    and no line contains the separator. *)
Lemma split_nonempty s sep : split s sep ≠ [].
Proof.
  induction s as [|c s IH]; simpl; [done|].
  destruct (c =? sep); [done|]. by destruct (split s sep).
Qed.

Lemma join_split s sep : join (split s sep) [sep] = s.
Proof.
  induction s as [|c s IH]; simpl; [done|].
  destruct (c =? sep) eqn:E.
  - apply N.eqb_eq in E as ->.
    pose proof (split_nonempty s sep).
    destruct (split s sep) as [|h r]; [done|]. simpl in *. by rewrite IH.
  - pose proof (split_nonempty s sep).
    destruct (split s sep) as [|h r]; [done|].
    destruct r; simpl in *; by rewrite <- IH.
Qed.

Lemma split_lines_free s sep line :
  In line (split s sep) → ¬ In sep line.
Proof.
  revert line; induction s as [|c s IH]; simpl; intros line.
  - intros [<-|[]]. by intros [].
  - destruct (c =? sep) eqn:E.
    + intros [<-|?]; [by intros []|auto].
    + pose proof (split_nonempty s sep).
      destruct (split s sep) as [|h r]; [done|].
      intros [<-|?].
      * intros [->|?]; [by rewrite N.eqb_refl in E|].
        by apply (IH h); [left|].
      * apply IH. by right.
Qed.

Lemma truthy_trim s : truthy (trim s) = true → truthy s = true.
Proof. by destruct s. Qed.

End Strings.

(** ** The classifier *)

Section Classifier.

Lemma prefix_literal :
  prefix feature = js "feature/" ∧ prefix release = js "release/"
  ∧ prefix hotfix = js "hotfix/" ∧ prefix support = js "support/"
  ∧ prefix bugfix = js "bugfix/".
Proof. by repeat split. Qed.

(** The classification of a name that begins with a topic prefix. *)
Lemma branchInfoOf_topic k n :
  In k topicTypes →
  branchInfoOf (prefix k ++ n)
  = {| type := k; name := n; fullName := prefix k ++ n |}.
Proof.
  intros Hk. simpl in Hk.
  destruct Hk as [<-|[<-|[<-|[<-|[<-|[]]]]]]; vm_compute; reflexivity.
Qed.

(** The classification of a name that begins with no topic prefix and
    is none of the base names. *)
Lemma branchInfoOf_unknown b :
  (∀ k, In k topicTypes → startsWith b (prefix k) = false) →
  b ≠ js "main" → b ≠ js "master" → b ≠ js "develop" →
  branchInfoOf b = {| type := unknown; name := b; fullName := b |}.
Proof.
  intros Hp Hmain Hmaster Hdevelop. unfold branchInfoOf.
  pose proof (Hp feature) as Hf. pose proof (Hp release) as Hr.
  pose proof (Hp hotfix) as Hh. pose proof (Hp support) as Hs.
  pose proof (Hp bugfix) as Hb.
  destruct prefix_literal as (Ef & Er & Eh & Es & Eb).
  rewrite Ef in Hf; rewrite Er in Hr; rewrite Eh in Hh;
    rewrite Es in Hs; rewrite Eb in Hb.
  rewrite Hf, Hr, Hh, Hs, Hb by (simpl; tauto).
  by rewrite !eqs_neq.
Qed.

(** C2: for every topic kind [k] and every name [n] (empty or not),
    classifying the ref name [prefix k ++ n] yields kind [k] and short
    name [n], with [fullName = prefix kind ++ name]; and so does
    [getCurrentBranch] whenever the trimmed answer of
    [git branch --show-current] is that ref name. *)
Theorem getCurrentBranch_topic_prefix (k : BranchType) (n : jstring) :
  In k topicTypes →
  (let b := branchInfoOf (prefix k ++ n) in
   type b = k ∧ name b = n ∧ fullName b = prefix (type b) ++ name b)
  ∧ ∀ w folder others stdout stderr,
      workspaceFolders w = folder :: others →
      execAsync w (js "git branch --show-current") (Some folder)
        = Returned (stdout, stderr) →
      trim stdout = prefix k ++ n →
      ∃ b, getCurrentBranch w = Returned b
           ∧ type b = k ∧ name b = n
           ∧ fullName b = prefix (type b) ++ name b.
Proof.
  intros Hk. split.
  - by rewrite branchInfoOf_topic.
  - intros w folder others stdout stderr Hw Hexec Htrim.
    unfold getCurrentBranch. rewrite Hw, Hexec. simpl.
    rewrite Htrim, branchInfoOf_topic by done. eauto.
Qed.

Lemma getCurrentBranch_topic_prefix_witness :
  ∃ b, getCurrentBranch onFeatureLogin = Returned b
       ∧ type b = feature ∧ name b = js "login"
       ∧ fullName b = prefix (type b) ++ name b.
Proof.
  refine (proj2 (getCurrentBranch_topic_prefix feature (js "login") _)
            onFeatureLogin (js "/repo") [] (js "feature/login" ++ [LF]) [] _ _ _).
  - simpl. tauto.
  - reflexivity.
  - reflexivity.
  - reflexivity.
Defined.

(** C6: [getCurrentBranch] throws the "not in a git repository" error
    only when a folder is open and [git branch --show-current] fails;
    when that command succeeds and the trimmed name begins with no
    topic prefix and is none of [main], [master], [develop] (the empty
    name of a detached HEAD included), it returns kind [unknown] with
    [name] and [fullName] both equal to that name. *)
Theorem getCurrentBranch_unknown (w : World) :
  (getCurrentBranch w = Thrown notInRepository →
   ∃ folder others e,
     workspaceFolders w = folder :: others
     ∧ execAsync w (js "git branch --show-current") (Some folder) = Thrown e)
  ∧ (∀ folder others stdout stderr,
       workspaceFolders w = folder :: others →
       execAsync w (js "git branch --show-current") (Some folder)
         = Returned (stdout, stderr) →
       (∀ k, In k topicTypes → startsWith (trim stdout) (prefix k) = false) →
       trim stdout ≠ js "main" → trim stdout ≠ js "master" →
       trim stdout ≠ js "develop" →
       getCurrentBranch w
       = Returned {| type := unknown; name := trim stdout;
                     fullName := trim stdout |})
  ∧ (∀ folder others stdout stderr,
       workspaceFolders w = folder :: others →
       execAsync w (js "git branch --show-current") (Some folder)
         = Returned (stdout, stderr) →
       trim stdout = [] →
       getCurrentBranch w
       = Returned {| type := unknown; name := []; fullName := [] |}).
Proof.
  split; [|split].
  - unfold getCurrentBranch.
    destruct (workspaceFolders w) as [|folder others]; [discriminate|].
    destruct (execAsync w _ _) as [[stdout stderr]|e] eqn:E; [discriminate|].
    intros _. eauto.
  - intros folder others stdout stderr Hw Hexec Hp H1 H2 H3.
    unfold getCurrentBranch. rewrite Hw, Hexec. simpl.
    by rewrite branchInfoOf_unknown.
  - intros folder others stdout stderr Hw Hexec Hempty.
    unfold getCurrentBranch. rewrite Hw, Hexec. simpl.
    by rewrite Hempty.
Qed.

(** The two failures of [getCurrentBranch], and no other. *)
Lemma getCurrentBranch_throws w e :
  getCurrentBranch w = Thrown e ↔
  (workspaceFolders w = [] ∧ e = noWorkspace)
  ∨ (∃ folder others e',
       workspaceFolders w = folder :: others
       ∧ execAsync w (js "git branch --show-current") (Some folder) = Thrown e'
       ∧ e = notInRepository).
Proof.
  unfold getCurrentBranch.
  destruct (workspaceFolders w) as [|folder others].
  - split; [intros [= <-]; by left|].
    intros [[_ ->]|(? & ? & ? & [=] & _)]; done.
  - destruct (execAsync w _ _) as [[stdout stderr]|e'] eqn:E.
    + split; [done|]. intros [[[=] _]|(? & ? & ? & [= <- <-] & He & _)].
      congruence.
    + split.
      * intros [= <-]. right. eauto 6.
      * intros [[[=] _]|(? & ? & ? & _ & _ & ->)]. done.
Qed.

Lemma getCurrentBranch_unknown_witness :
  getCurrentBranch detachedHead
  = Returned {| type := unknown; name := []; fullName := [] |}.
Proof.
  exact (proj2 (proj2 (getCurrentBranch_unknown detachedHead))
           (js "/repo") [] [LF] [] eq_refl eq_refl eq_refl).
Defined.

End Classifier.

(** ** Branch lists *)

Section BranchLists.

(** Every path through the not-installed branch throws, and none
    touches the context keys. *)
Lemma refuseNotInstalled_throws {A} w s :
  ∃ e s', @refuseNotInstalled A w s = (Thrown e, s')
          ∧ contextValues s' = contextValues s.
Proof.
  unfold refuseNotInstalled, hasDeclinedInstallation, markInstallationDeclined,
    showErrorMessage, showWarningMessage.
  run.
  destruct (getCurrentRepoPath w) as [repoPath|]; simpl;
    repeat match goal with
           | |- context [if ?b then _ else _] => destruct b; simpl
           end; eauto.
Qed.

Lemma refuseNotInstalled_tree {A} w s :
  treeRefreshes (snd (@refuseNotInstalled A w s)) = treeRefreshes s.
Proof.
  unfold refuseNotInstalled, hasDeclinedInstallation, markInstallationDeclined,
    showErrorMessage, showWarningMessage.
  run.
  destruct (getCurrentRepoPath w) as [repoPath|]; simpl;
    repeat match goal with
           | |- context [if ?b then _ else _] => destruct b; simpl
           end; done.
Qed.

(** [executeGitFlowCommand] never refreshes the tree view. *)
Lemma executeGitFlowCommand_tree w command args showOutput showError s :
  treeRefreshes (snd (executeGitFlowCommand w command args showOutput showError s))
  = treeRefreshes s.
Proof.
  unfold executeGitFlowCommand.
  destruct (isGitFlowNextInstalled w); simpl.
  - destruct (workspaceFolders w) as [|folder others]; [done|].
    unfold try_catch, await. run.
    destruct (execAsync w _ _) as [[stdout stderr]|e]; simpl;
      repeat match goal with
             | |- context [if ?b then _ else _] => destruct b; simpl
             end; done.
  - apply refuseNotInstalled_tree.
Qed.

(** [executeGitFlowCommand] never touches the context keys. *)
Lemma executeGitFlowCommand_context w command args showOutput showError s :
  contextValues (snd (executeGitFlowCommand w command args showOutput showError s))
  = contextValues s.
Proof.
  unfold executeGitFlowCommand.
  destruct (isGitFlowNextInstalled w); simpl.
  - destruct (workspaceFolders w) as [|folder others]; [done|].
    unfold try_catch, await. run.
    destruct (execAsync w _ _) as [[stdout stderr]|e]; simpl;
      repeat match goal with
             | |- context [if ?b then _ else _] => destruct b; simpl
             end; done.
  - destruct (@refuseNotInstalled_throws jstring w s) as (e & s' & -> & E). done.
Qed.

(** When [executeGitFlowCommand] returns, it returns the standard
    output of the command it built, run in the first folder. *)
Lemma executeGitFlowCommand_returns w command args showOutput showError s out :
  fst (executeGitFlowCommand w command args showOutput showError s) = Returned out ↔
  isGitFlowNextInstalled w = true
  ∧ ∃ folder others stderr,
      workspaceFolders w = folder :: others
      ∧ execAsync w (js "git flow " ++ command ++ js " " ++ join args (js " "))
          (Some folder) = Returned (out, stderr).
Proof.
  unfold executeGitFlowCommand.
  destruct (isGitFlowNextInstalled w); simpl.
  - destruct (workspaceFolders w) as [|folder others]; simpl.
    { split; [done|]. by intros (_ & ? & ? & ? & [=] & _). }
    unfold try_catch, await. run.
    destruct (execAsync w _ _) as [[stdout stderr]|e] eqn:E; simpl.
    + repeat match goal with
             | |- context [if ?b then _ else _] => destruct b; simpl
             end;
        (split;
         [intros [= ->]; eauto 6
         |intros (_ & f & o & e' & [= <- <-] & He);
          assert (Returned (stdout, stderr) = Returned (out, e')) as [= -> _]
            by exact (eq_trans (eq_sym E) He); done]).
    + repeat match goal with
             | |- context [if ?b then _ else _] => destruct b; simpl
             end;
        (split;
         [done
         |intros (_ & f & o & e' & [= <- <-] & He);
          assert (Thrown e = Returned (out, e')) as [=]
            by exact (eq_trans (eq_sym E) He)]).
  - destruct (@refuseNotInstalled_throws jstring w s) as (e & s' & -> & E). simpl.
    split; [done|]. by intros [[=] _].
Qed.

(** [getBranchList] turns a failure of its command into the empty
    list. *)
Lemma getBranchList_unfold w type s :
  getBranchList w type s
  = match executeGitFlowCommand w (type ++ js " list") [] false false s with
    | (Returned output, s') => (Returned (branchLines output), s')
    | (Thrown _, s') => (Returned [], s')
    end.
Proof.
  unfold getBranchList, try_catch. run.
  by destruct (executeGitFlowCommand _ _ _ _ _ _) as [[output|e] s'].
Qed.

Lemma branchLines_elem output x :
  In x (branchLines output) →
  ∃ line, In line (split output LF) ∧ x = trim line ∧ trim x = x
          ∧ x ≠ [] ∧ endsWith x (js ":") = false.
Proof.
  unfold branchLines. intros Hx.
  apply in_map_iff in Hx as (line & <- & Hline).
  apply list_elem_of_In in Hline.
  apply list_elem_of_filter in Hline as [Hcolon Hline].
  apply list_elem_of_filter in Hline as [Hblank Hline].
  apply list_elem_of_In in Hline.
  exists line. repeat split; auto using trim_idem.
  destruct (trim line); [discriminate|done].
Qed.

(** C10: every element of a branch list is a line of the command's
    output (split at line feeds) after trimming; it is trimmed, not
    empty and does not end with a colon. [getBranchList] always
    returns: the lines of the output when its command returns, the
    empty list when it throws; and so does the tree view's
    [getBranchList]. *)
Theorem getBranchList_lines :
  (∀ output x, In x (branchLines output) →
     ∃ line, In line (split output LF) ∧ x = trim line ∧ trim x = x
             ∧ x ≠ [] ∧ endsWith x (js ":") = false)
  ∧ (∀ w type s,
       ∃ l s', getBranchList w type s = (Returned l, s')
         ∧ match fst (executeGitFlowCommand w (type ++ js " list") [] false false s) with
           | Returned output => l = branchLines output
           | Thrown _ => l = []
           end)
  ∧ (∀ w type,
       match workspaceFolders w with
       | [] => treeGetBranchList w type = []
       | folder :: _ =>
           match execAsync w (js "git flow " ++ type ++ js " list") (Some folder) with
           | Returned (stdout, _) => treeGetBranchList w type = branchLines stdout
           | Thrown _ => treeGetBranchList w type = []
           end
       end).
Proof.
  split; [exact branchLines_elem|split].
  - intros w type s. rewrite getBranchList_unfold.
    destruct (executeGitFlowCommand _ _ _ _ _ _) as [[output|e] s']; simpl; eauto.
  - intros w type. unfold treeGetBranchList.
    destruct (workspaceFolders w) as [|folder others]; [done|].
    by destruct (execAsync w _ _) as [[stdout stderr]|e].
Qed.

Example branchLines_drops_header :
  branchLines (js "Feature branches:" ++ [LF] ++ js "  login " ++ [LF; LF]
               ++ js "* checkout" ++ [LF])
  = [js "login"; js "* checkout"].
Proof. reflexivity. Qed.

End BranchLists.

(** ** The state refresh *)

Section Refresh.

Lemma setContext_run key value s :
  ∃ s', setContext key value s = (Returned tt, s')
        ∧ contextValues s' = <[key := value]> (contextValues s).
Proof. unfold setContext. eauto. Qed.

(** The handler of the [catch]: it returns, and every key it is given
    is false afterwards. *)
Lemma resetContexts_run keys s :
  ∃ s', resetContexts keys s = (Returned tt, s')
        ∧ ∀ key, (In key keys → contextValues s' !! key = Some false)
                 ∧ (¬ In key keys → contextValues s' !! key = contextValues s !! key).
Proof.
  revert s; induction keys as [|k keys IH]; intros s; simpl.
  - exists s. split; [done|]. intros key. tauto.
  - run. unfold setContext. simpl.
    edestruct IH as (s' & -> & Hs'). exists s'. split; [done|].
    intros key. destruct (Hs' key) as [Hin Hout]. simpl in Hout.
    destruct (decide (key ∈ keys)) as [Hk%list_elem_of_In|Hk].
    + split; [auto|tauto].
    + rewrite list_elem_of_In in Hk. rewrite Hout by done. split.
      * intros [->|?]; [apply lookup_insert_eq|done].
      * intros Hne. apply lookup_insert_ne. tauto.
Qed.

Lemma resetContexts_tree keys s :
  treeRefreshes (snd (resetContexts keys s)) = treeRefreshes s.
Proof.
  revert s; induction keys as [|k keys IH]; intros s; [done|].
  simpl. run. unfold setContext. simpl. by rewrite IH.
Qed.

(** [getBranchList] returns, whatever its command does, and leaves the
    context keys and the tree view alone. *)
Lemma getBranchList_run w type s :
  ∃ l s', getBranchList w type s = (Returned l, s')
          ∧ contextValues s' = contextValues s
          ∧ treeRefreshes s' = treeRefreshes s
          ∧ l = match fst (executeGitFlowCommand w (type ++ js " list") [] false false s) with
                | Returned output => branchLines output
                | Thrown _ => []
                end.
Proof.
  rewrite getBranchList_unfold.
  pose proof (executeGitFlowCommand_context w (type ++ js " list") [] false false s) as E.
  pose proof (executeGitFlowCommand_tree w (type ++ js " list") [] false false s) as T.
  destruct (executeGitFlowCommand _ _ _ _ _ _) as [[output|e] s']; simpl in *; eauto 6.
Qed.

(** What a list query gives does not depend on the state it runs in. *)
Lemma list_query_stateless w command s1 s2 :
  match fst (executeGitFlowCommand w command [] false false s1) with
  | Returned output => branchLines output
  | Thrown _ => []
  end
  = match fst (executeGitFlowCommand w command [] false false s2) with
    | Returned output => branchLines output
    | Thrown _ => []
    end.
Proof.
  destruct (fst (executeGitFlowCommand w command [] false false s1)) as [o1|e1] eqn:E1;
    destruct (fst (executeGitFlowCommand w command [] false false s2)) as [o2|e2] eqn:E2;
    try done.
  - apply executeGitFlowCommand_returns in E1 as (_ & f1 & ? & ? & Hw1 & Hx1).
    apply executeGitFlowCommand_returns in E2 as (_ & f2 & ? & ? & Hw2 & Hx2).
    rewrite Hw1 in Hw2. injection Hw2 as <- <-. congruence.
  - apply executeGitFlowCommand_returns in E1.
    apply (executeGitFlowCommand_returns w command [] false false s2) in E1.
    congruence.
  - apply executeGitFlowCommand_returns in E2.
    apply (executeGitFlowCommand_returns w command [] false false s1) in E2.
    congruence.
Qed.

(** Each run of [updateContextVariables] refreshes the tree view
    once, whether or not the current branch can be read. *)
Lemma updateContextVariables_tree w s :
  treeRefreshes (snd (updateContextVariables w s)) = S (treeRefreshes s).
Proof.
  destruct (getCurrentBranch w) as [info|e] eqn:Hbranch.
  - unfold updateContextVariables, try_catch, await.
    unfold mbind, M_bind. simpl. rewrite Hbranch. simpl.
    repeat match goal with
           | |- context [getBranchList w ?t ?st] =>
               destruct (getBranchList_run w t st) as (? & ? & -> & _ & ? & _)
           end.
    simpl in *. congruence.
  - assert (∃ s0, updateContextVariables w s = resetContexts contextKeys.values s0
                  ∧ treeRefreshes s0 = S (treeRefreshes s)) as (s0 & -> & <-).
    { unfold updateContextVariables, try_catch, await.
      unfold mbind, M_bind. simpl. rewrite Hbranch. simpl.
      eexists. split; reflexivity. }
    apply resetContexts_tree.
Qed.

(** C1: [updateContextVariables] never throws; and whenever
    [getCurrentBranch] fails (no folder open, or
    [git branch --show-current] fails), every context key of
    [contextKeys] is false afterwards: the key of each kind's "is on"
    flag, of the topic flag and of each kind's existence flag. *)
Theorem updateContextVariables_degrades (w : World) (s : State) :
  fst (updateContextVariables w s) = Returned tt
  ∧ ∀ e, getCurrentBranch w = Thrown e →
      (∀ key, In key contextKeys.values →
         contextValues (snd (updateContextVariables w s)) !! key = Some false)
      ∧ contextValues (snd (updateContextVariables w s)) !! contextKeys.isOnTopicBranch
        = Some false
      ∧ ∀ k, In k topicTypes →
          contextValues (snd (updateContextVariables w s)) !! isOnKey k = Some false
          ∧ contextValues (snd (updateContextVariables w s)) !! existKey k = Some false.
Proof.
  destruct (getCurrentBranch w) as [info|e0] eqn:Hbranch.
  - split; [|discriminate].
    unfold updateContextVariables, try_catch, await.
    unfold mbind, M_bind. simpl. rewrite Hbranch. simpl.
    repeat match goal with
           | |- context [getBranchList w ?t ?st] =>
               destruct (getBranchList_run w t st) as (? & ? & -> & _ & _ & _)
           end.
    done.
  - assert (∃ s0, updateContextVariables w s = resetContexts contextKeys.values s0)
      as [s0 Hs0].
    { unfold updateContextVariables, try_catch, await.
      unfold mbind, M_bind. simpl. rewrite Hbranch. simpl. eauto. }
    rewrite Hs0.
    destruct (resetContexts_run contextKeys.values s0) as (s' & -> & Hs'). simpl.
    split; [done|]. intros e _.
    assert (∀ key, In key contextKeys.values → contextValues s' !! key = Some false)
      as Hall.
    { intros key Hkey. by apply Hs'. }
    split; [exact Hall|]. split; [apply Hall; simpl; tauto|].
    intros k Hk. simpl in Hk.
    destruct Hk as [<-|[<-|[<-|[<-|[<-|[]]]]]];
      split; apply Hall; simpl; tauto.
Qed.

Lemma updateContextVariables_degrades_witness :
  (fst (updateContextVariables plainWorld initialState) = Returned tt
   ∧ ∀ key, In key contextKeys.values →
       contextValues (snd (updateContextVariables plainWorld initialState)) !! key
       = Some false)
  ∧ (fst (updateContextVariables noFolder initialState) = Returned tt
     ∧ ∀ key, In key contextKeys.values →
         contextValues (snd (updateContextVariables noFolder initialState)) !! key
         = Some false).
Proof.
  split.
  - destruct (updateContextVariables_degrades plainWorld initialState) as [Hret Hall].
    split; [exact Hret|]. exact (proj1 (Hall notInRepository eq_refl)).
  - destruct (updateContextVariables_degrades noFolder initialState) as [Hret Hall].
    split; [exact Hret|]. exact (proj1 (Hall noWorkspace eq_refl)).
Defined.

Lemma returns_bind {A B} (c : M A) (f : A → M B) s Q :
  returns c s (λ a s', returns (f a) s' Q) → returns (c ≫= f) s Q.
Proof.
  intros (a & s' & Hc & b & s'' & Hf & HQ). exists b, s''.
  unfold mbind, M_bind. by rewrite Hc.
Qed.

Lemma returns_try {A} (c : M A) h s Q :
  returns c s Q → returns (try_catch c h) s Q.
Proof.
  intros (a & s' & Hc & HQ). exists a, s'. unfold try_catch. by rewrite Hc.
Qed.

Lemma returns_setContext key value s (Q : unit → State → Prop) :
  (∀ s', contextValues s' = <[key := value]> (contextValues s) → Q tt s') →
  returns (setContext key value) s Q.
Proof. intros HQ. eexists _, _. split; [reflexivity|]. by apply HQ. Qed.

Lemma returns_refresh s (Q : unit → State → Prop) :
  (∀ s', contextValues s' = contextValues s → Q tt s') → returns refresh s Q.
Proof. intros HQ. eexists _, _. split; [reflexivity|]. by apply HQ. Qed.

Lemma returns_await {A} (a : A) s (Q : A → State → Prop) :
  Q a s → returns (await (Returned a)) s Q.
Proof. intros HQ. by exists a, s. Qed.

Lemma returns_getBranchList w type s (Q : list jstring → State → Prop) :
  (∀ s', contextValues s' = contextValues s →
     Q (match fst (executeGitFlowCommand w (type ++ js " list") [] false false s) with
        | Returned output => branchLines output
        | Thrown _ => []
        end) s') →
  returns (getBranchList w type) s Q.
Proof.
  intros HQ. destruct (getBranchList_run w type s) as (l & s' & E & Hc & _ & ->).
  eexists _, s'. split; [exact E|]. by apply HQ.
Qed.

(** C7: when the current branch can be read, the refresh completes
    and the existence flag of every topic kind is decided by that
    kind's own list query alone: false when the query throws,
    otherwise whether its output has a branch line. A failing query of
    one kind changes no other kind's flag. *)
Theorem updateContextVariables_per_kind (w : World) (s : State)
    (info : BranchInfo) :
  getCurrentBranch w = Returned info →
  fst (updateContextVariables w s) = Returned tt
  ∧ ∀ k s0, In k topicTypes →
      contextValues (snd (updateContextVariables w s)) !! existKey k
      = Some (match fst (executeGitFlowCommand w (typeName k ++ js " list")
                           [] false false s0) with
              | Returned output => nonEmpty (branchLines output)
              | Thrown _ => false
              end).
Proof.
  intros Hbranch.
  cut (returns (updateContextVariables w) s (λ _ s',
         ∀ k s0, In k topicTypes →
           contextValues s' !! existKey k
           = Some (nonEmpty
                     (match fst (executeGitFlowCommand w (typeName k ++ js " list")
                                   [] false false s0) with
                      | Returned output => branchLines output
                      | Thrown _ => []
                      end)))).
  { intros ([] & s' & -> & Hs'). simpl. split; [done|].
    intros k s0 Hk. rewrite (Hs' k s0 Hk).
    by destruct (fst (executeGitFlowCommand _ _ _ _ _ _)). }
  unfold updateContextVariables. rewrite Hbranch.
  apply returns_try.
  repeat first
    [ apply returns_bind
    | apply returns_setContext; intros ? ?
    | apply returns_refresh; intros ? ?
    | apply returns_await
    | apply returns_getBranchList; intros ? ? ].
  intros k s0 Hk.
  repeat match goal with
         | H : contextValues ?x = _ |- context [contextValues ?x] => rewrite H
         end.
  simpl in Hk.
  destruct Hk as [<-|[<-|[<-|[<-|[<-|[]]]]]]; simpl existKey; simpl typeName;
    repeat (rewrite lookup_insert_ne by key_ne); rewrite lookup_insert_eq;
    do 2 f_equal; apply list_query_stateless.
Qed.

Lemma updateContextVariables_per_kind_witness :
  fst (updateContextVariables supportFails initialState) = Returned tt
  ∧ contextValues (snd (updateContextVariables supportFails initialState))
      !! existKey support = Some false
  ∧ contextValues (snd (updateContextVariables supportFails initialState))
      !! existKey feature = Some true
  ∧ contextValues (snd (updateContextVariables supportFails initialState))
      !! existKey release = Some false.
Proof.
  destruct (updateContextVariables_per_kind supportFails initialState
              {| type := develop; name := js "develop"; fullName := js "develop" |}
              eq_refl) as [Hret Hflags].
  split; [exact Hret|]. split; [|split].
  - rewrite (Hflags support initialState) by (simpl; tauto). reflexivity.
  - rewrite (Hflags feature initialState) by (simpl; tauto). reflexivity.
  - rewrite (Hflags release initialState) by (simpl; tauto). reflexivity.
Defined.

End Refresh.

(** ** The argument resolvers *)

Section Resolvers.


(** The occurrences of [--notag] among the arguments of a tagged
    finish are values: the trimmed tag prefix, tag message or signing
    key. *)
Lemma getTagOptions_notag_is_value w branchType branchName s options s' :
  getTagOptions w branchType branchName s = (Returned options, s') →
  get_boolean w (branchType ++ js ".createTag") false = true →
  In (js "--notag") options →
  trim (get_string w (branchType ++ js ".tagPrefix") []) = js "--notag"
  ∨ trim (get_string w (js "gpgSigningKey") []) = js "--notag"
  ∨ ∃ branchName' tagMessage,
      inputBox w (js "Enter tag message") (js "Release " ++ branchName')
        = Some tagMessage
      ∧ trim tagMessage = js "--notag".
Proof.
  unfold getTagOptions, showInputBox. intros Hrun Hc. rewrite Hc in Hrun.
  revert Hrun. run.
  destruct branchName as [branchName|]; simpl;
    [destruct (get_boolean w (js "promptForTagMessage") false && truthy branchName);
     simpl;
     [destruct (inputBox w _ _) as [tagMessage|] eqn:Hbox; simpl|]|];
    split_ifs; intros [= <- _]; simpl;
    intros Hin;
    repeat match goal with
           | H : _ ∨ _ |- _ => destruct H as [H|H]
           | H : False |- _ => destruct H
           | H : js _ = js _ |- _ => by vm_compute in H
           end; eauto 6.
Qed.



(** C8: the retention options hold at most one of [--keep],
    [--keeplocal], [--keepremote], and none of them when the mode is
    [delete]; they hold [--force-delete] exactly when [forceDelete] is
    set, whatever the mode. *)
Theorem getBranchRetentionOptions_axes (w : World) (branchType : jstring) :
  let options := getBranchRetentionOptions w branchType in
  (occurrences isKeepFlag options ≤ 1)%nat
  ∧ (get_string w (branchType ++ js ".keepBranch") (js "delete") = js "delete" →
     occurrences isKeepFlag options = 0%nat)
  ∧ (In (js "--force-delete") options
     ↔ get_boolean w (js "forceDelete") false = true).
Proof.
  unfold getBranchRetentionOptions. simpl.
  destruct (get_boolean w (js "forceDelete") false);
    destruct (eqs _ (js "use-git-config")) eqn:E0; simpl;
    (split; [|split]);
    try (intros ->; by vm_compute in E0);
    repeat match goal with
           | |- context [if eqs ?a ?b then _ else _] =>
               let E := fresh "E" in destruct (eqs a b) eqn:E; simpl
           end;
    try (vm_compute; lia);
    try (intros Hd; rewrite Hd in *; by vm_compute in *);
    try (split; [done|]; simpl; tauto);
    try (split; [done|]; intros _; apply in_or_app; simpl; tauto);
    try (split; [|done]; simpl; intros Hin;
         repeat match goal with
                | H : _ ∨ _ |- _ => destruct H as [H|H]
                | H : False |- _ => destruct H
                | H : js _ = js _ |- _ => by vm_compute in H
                end).
Qed.

(** The flag of each retention mode. *)
Lemma getBranchRetentionOptions_modes w branchType :
  get_boolean w (js "forceDelete") false = false →
  let keepBranch := get_string w (branchType ++ js ".keepBranch") (js "delete") in
  (keepBranch = js "keep" → getBranchRetentionOptions w branchType = [js "--keep"])
  ∧ (keepBranch = js "keep-local" →
     getBranchRetentionOptions w branchType = [js "--keeplocal"])
  ∧ (keepBranch = js "keep-remote" →
     getBranchRetentionOptions w branchType = [js "--keepremote"])
  ∧ (keepBranch = js "delete" → getBranchRetentionOptions w branchType = []).
Proof.
  intros Hf. unfold getBranchRetentionOptions. rewrite Hf. simpl.
  repeat split; intros ->; reflexivity.
Qed.

End Resolvers.

Section ResolverKinds.

Lemma get_string_unset w key dflt :
  configString w key = None → get_string w key dflt = dflt.
Proof. unfold get_string. by intros ->. Qed.

Lemma get_boolean_unset w key dflt :
  configBoolean w key = None → get_boolean w key dflt = dflt.
Proof. unfold get_boolean. by intros ->. Qed.

(** C3 (as the code has it): no resolver fails for a kind that is
    not a branch type. [getTagOptions] returns for every kind name,
    and the other resolvers are total; for a kind name under which
    nothing is configured they give the generic defaults: no strategy
    flag, [--no-ff], no preserve-merges flag, [--notag], and no
    retention flag besides [--force-delete] when [forceDelete] is
    set. *)
Theorem resolvers_default_for_unset_kind (w : World) (branchType : jstring) :
  (∀ key, startsWith key (branchType ++ js ".") = true →
     configString w key = None ∧ configBoolean w key = None) →
  ∀ op branchName s,
    getMergeStrategy w branchType op = []
    ∧ getFastForwardOptions w branchType = [js "--no-ff"]
    ∧ getPreserveMergesOption w branchType = []
    ∧ getTagOptions w branchType branchName s = (Returned [js "--notag"], s)
    ∧ getBranchRetentionOptions w branchType
      = if get_boolean w (js "forceDelete") false
        then [js "--force-delete"] else [].
Proof.
  intros Hunset op branchName s.
  assert (∀ rest, configString w (branchType ++ js "." ++ rest) = None
                  ∧ configBoolean w (branchType ++ js "." ++ rest) = None) as Hkey.
  { intros rest. apply Hunset. rewrite app_assoc. apply startsWith_app. }
  assert (∀ rest dflt, get_string w (branchType ++ js "." ++ rest) dflt = dflt) as Hs.
  { intros. apply get_string_unset, Hkey. }
  assert (∀ rest dflt, get_boolean w (branchType ++ js "." ++ rest) dflt = dflt) as Hb.
  { intros. apply get_boolean_unset, Hkey. }
  repeat split.
  - unfold getMergeStrategy. rewrite Hs. by destruct op.
  - unfold getFastForwardOptions.
    change (branchType ++ js ".fastForward")
      with (branchType ++ js "." ++ js "fastForward").
    by rewrite Hs.
  - unfold getPreserveMergesOption.
    change (branchType ++ js ".preserveMerges")
      with (branchType ++ js "." ++ js "preserveMerges").
    by rewrite Hb.
  - unfold getTagOptions.
    change (branchType ++ js ".createTag")
      with (branchType ++ js "." ++ js "createTag").
    by rewrite Hb.
  - unfold getBranchRetentionOptions.
    change (branchType ++ js ".keepBranch")
      with (branchType ++ js "." ++ js "keepBranch").
    rewrite Hs. by destruct (get_boolean w (js "forceDelete") false).
Qed.

Lemma resolvers_default_for_unset_kind_witness :
  getMergeStrategy plainWorld (js "widget") finish = []
  ∧ getFastForwardOptions plainWorld (js "widget") = [js "--no-ff"]
  ∧ getPreserveMergesOption plainWorld (js "widget") = []
  ∧ getTagOptions plainWorld (js "widget") None initialState
    = (Returned [js "--notag"], initialState)
  ∧ getBranchRetentionOptions plainWorld (js "widget") = [].
Proof.
  exact (resolvers_default_for_unset_kind plainWorld (js "widget")
           (λ _ _, conj eq_refl eq_refl) finish None initialState).
Defined.

(** C3 (as stated) fails: [widget] is no branch type, and with
    nothing configured every resolver returns its generic default
    instead of failing. *)
Lemma unknown_kind_falls_back :
  ¬ In (js "widget") (map typeName topicTypes)
  ∧ getMergeStrategy plainWorld (js "widget") finish = []
  ∧ getMergeStrategy plainWorld (js "widget") update = []
  ∧ getFastForwardOptions plainWorld (js "widget") = [js "--no-ff"]
  ∧ getPreserveMergesOption plainWorld (js "widget") = []
  ∧ fst (getTagOptions plainWorld (js "widget") None initialState)
    = Returned [js "--notag"]
  ∧ getBranchRetentionOptions plainWorld (js "widget") = [].
Proof.
  split; [|by repeat split].
  simpl. intros H.
  repeat match goal with
         | H : _ ∨ _ |- _ => destruct H as [H|H]
         | H : False |- _ => destruct H
         | H : _ = js _ |- _ => by vm_compute in H
         end.
Qed.

End ResolverKinds.

(** ** The surfaced error message *)

Section ErrorMessage.

Lemma isLineTerminator_LF c : isLineTerminator c = false → (c =? LF) = false.
Proof. unfold isLineTerminator, LF. by intros [[[? ?]%orb_false_iff ?]%orb_false_iff ?]%orb_false_iff. Qed.

Lemma lazyDots_Some acc rest m :
  lazyDots acc rest = Some m ↔
  ∃ run tail, rest = run ++ tail ∧ m = acc ++ run
              ∧ Forall (λ c, isLineTerminator c = false) run
              ∧ (tail = [] ∨ ∃ tail', tail = LF :: tail').
Proof.
  split.
  - revert acc. induction rest as [|c rest IH]; intros acc; simpl.
    + intros [= <-]. exists [], [].
      split; [done|]. split; [by rewrite app_nil_r|]. auto.
    + destruct (c =? LF) eqn:E.
      * apply N.eqb_eq in E as ->. intros [= <-].
        exists [], (LF :: rest).
        split; [done|]. split; [by rewrite app_nil_r|]. eauto.
      * destruct (isLineTerminator c) eqn:Ec; [done|].
        intros (run & tail & -> & -> & Hrun & Htail)%IH.
        exists (c :: run), tail. rewrite <- app_assoc. auto.
  - intros (run & tail & -> & -> & Hrun & Htail).
    revert acc. induction Hrun as [|c run Hc Hrun IH]; intros acc; simpl.
    + rewrite app_nil_r. by destruct Htail as [->|[tail' ->]].
    + rewrite (isLineTerminator_LF c Hc), Hc, IH. by rewrite <- app_assoc.
Qed.

(** The expression matches at the start of [s] exactly when [s]
    begins with a marker, and captures its message. *)
Lemma errorAt_marker s msg : errorAt s = Some msg ↔ markerAt s msg.
Proof.
  unfold errorAt, markerAt. split.
  - destruct (startsWith s (js "Error: ")) eqn:E; [|done].
    apply startsWith_split in E as [r ->].
    change 7%nat with (length (js "Error: ")). rewrite drop_prefix.
    destruct r as [|c r]; [done|].
    destruct (isLineTerminator c) eqn:Ec; [done|].
    intros (run & tail & -> & -> & Hrun & Htail)%lazyDots_Some.
    exists tail. repeat split; auto. by constructor.
  - intros (rest & -> & Hmsg & Hrun & Hrest).
    rewrite startsWith_app.
    change 7%nat with (length (js "Error: ")). rewrite drop_prefix.
    destruct msg as [|c msg]; [done|]. simpl.
    apply Forall_cons in Hrun as [-> Hrun].
    apply lazyDots_Some. exists msg, rest. auto.
Qed.

Lemma matchError_cons c s :
  matchError (c :: s)
  = match errorAt (c :: s) with
    | Some m => Some m
    | None => matchError s
    end.
Proof. reflexivity. Qed.

Lemma matchError_first before s msg :
  markerAt s msg →
  (∀ b1 s1 m1, before ++ s = b1 ++ s1 → (length b1 < length before)%nat →
               ¬ markerAt s1 m1) →
  matchError (before ++ s) = Some msg.
Proof.
  intros Hmark. induction before as [|c before IH]; intros Hfirst.
  - apply errorAt_marker in Hmark. rewrite app_nil_l.
    destruct s as [|c s]; [by vm_compute in Hmark|].
    by rewrite matchError_cons, Hmark.
  - rewrite <- app_comm_cons, matchError_cons.
    destruct (errorAt (c :: before ++ s)) as [m|] eqn:E.
    + apply errorAt_marker in E.
      destruct (Hfirst [] _ m eq_refl); [simpl; lia|done].
    + apply IH. intros b1 s1 m1 Heq Hlen.
      apply (Hfirst (c :: b1) s1 m1); [by rewrite <- app_comm_cons, Heq|simpl; lia].
Qed.

Lemma matchError_none raw :
  (∀ b s m, raw = b ++ s → ¬ markerAt s m) → matchError raw = None.
Proof.
  induction raw as [|c raw IH]; intros Hnone; [reflexivity|].
  rewrite matchError_cons.
  destruct (errorAt (c :: raw)) as [m|] eqn:E.
  - apply errorAt_marker in E. by destruct (Hnone [] (c :: raw) m).
  - apply IH. intros b s m ->. by apply (Hnone (c :: b) s m).
Qed.

Lemma skipLine_run run rest :
  ¬ In LF run →
  skipLine (run ++ LF :: rest) = LF :: rest ∧ skipLine run = [].
Proof.
  induction run as [|c run IH]; simpl; [done|].
  intros Hrun. destruct (c =? LF) eqn:E.
  - apply N.eqb_eq in E. tauto.
  - apply IH. tauto.
Qed.

Lemma stripCommandFailed_line cmdline rest :
  cmdline ≠ [] → ¬ In LF cmdline →
  stripCommandFailed (js "Command failed: " ++ cmdline ++ LF :: rest) = rest
  ∧ stripCommandFailed (js "Command failed: " ++ cmdline) = [].
Proof.
  intros Hne Hrun. unfold stripCommandFailed.
  rewrite !startsWith_app.
  change 16%nat with (length (js "Command failed: ")). rewrite !drop_prefix.
  destruct cmdline as [|c cmdline]; [done|]. simpl.
  destruct (c =? LF) eqn:E.
  { apply N.eqb_eq in E. simpl in Hrun. tauto. }
  destruct (skipLine_run cmdline rest) as [-> ->]; [simpl in Hrun; tauto|].
  by rewrite N.eqb_refl.
Qed.

(** The regular expression and the fallback, read exactly: when the
    failure text holds [Error: ] followed by a non-empty message free of
    line terminators (LF, CR, LS, PS) that a line feed or the end of the
    text ends, the surfaced message is that message, at the first such
    place; without such a place it is the trimmed text, stripped of a
    leading [Command failed: <cmdline>] line (a non-empty command line
    up to the first line feed). With [showError] set, a failing command
    shows that message behind [Git Flow: ] when it is not empty, and
    throws the failure on. *)
Theorem extractErrorMessage_marker :
  (∀ before s msg,
     markerAt s msg →
     (∀ b1 s1 m1, before ++ s = b1 ++ s1 → (length b1 < length before)%nat →
                  ¬ markerAt s1 m1) →
     extractErrorMessage (before ++ s) = msg)
  ∧ (∀ raw,
       (∀ b s m, raw = b ++ s → ¬ markerAt s m) →
       extractErrorMessage raw = trim (stripCommandFailed raw))
  ∧ (∀ cmdline rest,
       cmdline ≠ [] → ¬ In LF cmdline →
       stripCommandFailed (js "Command failed: " ++ cmdline ++ LF :: rest) = rest
       ∧ stripCommandFailed (js "Command failed: " ++ cmdline) = [])
  ∧ (∀ raw, startsWith raw (js "Command failed: ") = false →
            stripCommandFailed raw = raw)
  ∧ (∀ w command args showOutput s folder others e,
       isGitFlowNextInstalled w = true →
       workspaceFolders w = folder :: others →
       execAsync w (js "git flow " ++ command ++ js " " ++ join args (js " "))
         (Some folder) = Thrown e →
       executeGitFlowCommand w command args showOutput true s
       = (Thrown e,
          if truthy (extractErrorMessage (rawMessage e))
          then snd (show (ErrorMessage
                            (js "Git Flow: " ++ extractErrorMessage (rawMessage e))
                            []) s)
          else s)).
Proof.
  split; [|split; [|split; [|split]]].
  - intros before s msg Hmark Hfirst. unfold extractErrorMessage.
    by rewrite (matchError_first before s msg).
  - intros raw Hnone. unfold extractErrorMessage.
    by rewrite matchError_none.
  - exact stripCommandFailed_line.
  - intros raw Hstart. unfold stripCommandFailed. by rewrite Hstart.
  - intros w command args showOutput s folder others e Hinst Hw Hexec.
    unfold executeGitFlowCommand. rewrite Hinst, Hw.
    unfold try_catch, await, mbind, M_bind. rewrite Hexec.
    unfold when. simpl.
    by destruct (truthy (extractErrorMessage (rawMessage e))).
Qed.

(** A failure whose error line is [Error: merge conflict]. *)
Lemma extractErrorMessage_marker_witness :
  extractErrorMessage
    (js "Command failed: git flow feature finish login" ++ [LF]
     ++ js "Error: merge conflict" ++ LF :: js "hint: resolve and continue")
  = js "merge conflict".
Proof.
  refine (proj1 extractErrorMessage_marker
            (js "Command failed: git flow feature finish login" ++ [LF])
            (js "Error: merge conflict" ++ LF :: js "hint: resolve and continue")
            (js "merge conflict") _ _).
  - exists (LF :: js "hint: resolve and continue").
    repeat split; [done| |eauto].
    vm_compute. repeat constructor.
  - intros b1 s1 m1 Heq Hlen (rest & -> & _).
    assert (startsWith (drop (length b1) (b1 ++ js "Error: " ++ m1 ++ rest)) (js "Error: ") = true)
      as Hs by (rewrite drop_prefix; apply startsWith_app).
    rewrite <- Heq in Hs. clear Heq.
    change (length (js "Command failed: git flow feature finish login" ++ [LF]))
      with 46%nat in Hlen.
    do 46 (destruct b1 as [|? b1]; [by vm_compute in Hs|]).
    simpl in Hlen. lia.
Defined.

(** [Command failed: ] with nothing on its line is not stripped: the
    expression asks for a command line of one unit at least. *)
Lemma stripCommandFailed_empty_line rest :
  stripCommandFailed (js "Command failed: " ++ LF :: rest)
  = js "Command failed: " ++ LF :: rest
  ∧ stripCommandFailed (js "Command failed: ") = js "Command failed: ".
Proof. split; reflexivity. Qed.

(** C9: the failure text of a finish whose error line ends with CR LF
    holds the marker [Error: ], and the text after the first marker up
    to the end of its line is [merge conflict] (with or without the
    carriage return). The code does not find the marker: the expression
    does not match, the branch for a text without marker runs, and the
    message surfaced and shown is [Error: merge conflict], marker
    included. *)
Lemma extractErrorMessage_crlf :
  includes crlfFailure (js "Error: ") = true
  ∧ matchError crlfFailure = None
  ∧ extractErrorMessage crlfFailure = trim (stripCommandFailed crlfFailure)
  ∧ extractErrorMessage crlfFailure = js "Error: merge conflict"
  ∧ statedMessage (N.eqb LF) crlfFailure = js "merge conflict" ++ [13]
  ∧ statedMessage isLineTerminator crlfFailure = js "merge conflict"
  ∧ extractErrorMessage crlfFailure ≠ statedMessage (N.eqb LF) crlfFailure
  ∧ extractErrorMessage crlfFailure ≠ statedMessage isLineTerminator crlfFailure
  ∧ fst (executeGitFlowCommand conflictCrlf (js "feature finish") [js "login"]
           false true initialState)
    = Thrown (Error crlfFailure)
  ∧ shown (snd (executeGitFlowCommand conflictCrlf (js "feature finish")
                  [js "login"] false true initialState))
    = [ErrorMessage (js "Git Flow: Error: merge conflict") []].
Proof. by repeat split. Qed.

End ErrorMessage.

(** ** Refresh on save *)

Section RefreshOnSave.

Import Timers.

Lemma refreshes_from pending saves :
  foldl (λ pending save, onDidSaveTextDocument (fst save) (snd save) pending)
        pending saves
  = pending ++ map (λ save, fst save + 1000) (List.filter triggers saves).
Proof.
  revert pending. induction saves as [|[now fileName] saves IH]; intros pending.
  - simpl. by rewrite app_nil_r.
  - simpl. rewrite IH. unfold onDidSaveTextDocument, triggers, setTimeout. simpl.
    destruct (includes fileName (js ".git/") || endsWith fileName (js ".gitignore"));
      simpl; [by rewrite <- app_assoc|done].
Qed.

Lemma fire_count w pending s :
  treeRefreshes (fire w pending s) = (treeRefreshes s + length pending)%nat.
Proof.
  unfold fire. revert s. induction pending as [|due pending IH]; intros s; simpl.
  - lia.
  - rewrite IH, updateContextVariables_tree. lia.
Qed.

(** C5 (what the code does instead): every triggering save sets its
    own timer, one second after it, and none is cancelled; the number
    of runs of [updateContextVariables] (each refreshes the tree
    view once) is the number of triggering saves. Two saves of
    [.git/HEAD] ten milliseconds apart run two refreshes, at 1000 and
    at 1010. *)
Theorem refreshesAfter_every_save :
  (∀ saves,
     refreshesAfter saves
     = map (λ save, fst save + 1000) (List.filter triggers saves))
  ∧ (∀ saves,
       length (refreshesAfter saves) = length (List.filter triggers saves))
  ∧ (∀ w saves s,
       treeRefreshes (fire w (refreshesAfter saves) s)
       = (treeRefreshes s + length (List.filter triggers saves))%nat)
  ∧ refreshesAfter [(0, js ".git/HEAD"); (10, js ".git/HEAD")] = [1000; 1010]
  ∧ (∀ w s,
       treeRefreshes
         (fire w (refreshesAfter [(0, js ".git/HEAD"); (10, js ".git/HEAD")]) s)
       = S (S (treeRefreshes s))).
Proof.
  assert (∀ saves, refreshesAfter saves
                   = map (λ save, fst save + 1000) (List.filter triggers saves)) as H.
  { intros saves. unfold refreshesAfter. by rewrite refreshes_from. }
  assert (∀ saves, length (refreshesAfter saves)
                   = length (List.filter triggers saves)) as Hlen.
  { intros saves. by rewrite H, length_map. }
  assert (∀ w saves s,
            treeRefreshes (fire w (refreshesAfter saves) s)
            = (treeRefreshes s + length (List.filter triggers saves))%nat) as Hfire.
  { intros w saves s. rewrite fire_count, Hlen. done. }
  split; [exact H|]. split; [exact Hlen|]. split; [exact Hfire|].
  split; [reflexivity|].
  intros w s. rewrite Hfire. simpl. lia.
Qed.

End RefreshOnSave.

(** ** Further properties: running the tool *)

Section Installation.

Lemma includesItem_In l x : includesItem l x = true ↔ In x l.
Proof.
  unfold includesItem. rewrite existsb_exists. split.
  - intros (y & Hy & ->%eqs_eq). done.
  - intros Hx. exists x. split; [done|apply eqs_refl].
Qed.

(** X3: when the tool is not installed, [executeGitFlowCommand] throws
    and publishes nothing. For a repository with a non-empty path whose
    installation was declined it throws [declinedError] and shows
    nothing; once the user answers [Not Now] there, the repository is on
    the declined list, so the next command is refused without a prompt.
    Without a folder, or with an empty path, nothing is ever put on the
    list. *)
Theorem executeGitFlowCommand_not_installed (w : World) (command : jstring)
    (args : list jstring) (showOutput showError : bool) (s : State) :
  isGitFlowNextInstalled w = false →
  (∃ e s', executeGitFlowCommand w command args showOutput showError s = (Thrown e, s')
           ∧ contextValues s' = contextValues s
           ∧ treeRefreshes s' = treeRefreshes s)
  ∧ (∀ repoPath,
       getCurrentRepoPath w = Some repoPath →
       truthy repoPath = true →
       In repoPath (declinedInstallations s) →
       executeGitFlowCommand w command args showOutput showError s
       = (Thrown declinedError, s))
  ∧ (∀ repoPath,
       getCurrentRepoPath w = Some repoPath →
       truthy repoPath = true →
       (∀ items, pickItem w requiredText items = Some (js "Not Now")) →
       let s' := snd (executeGitFlowCommand w command args showOutput showError s) in
       In repoPath (declinedInstallations s')
       ∧ ∀ command' args' showOutput' showError',
           executeGitFlowCommand w command' args' showOutput' showError' s'
           = (Thrown declinedError, s'))
  ∧ (getCurrentRepoPath w = None ∨ getCurrentRepoPath w = Some [] →
     declinedInstallations
       (snd (executeGitFlowCommand w command args showOutput showError s))
     = declinedInstallations s).
Proof.
  intros Hinst.
  assert (∀ c a so se st repoPath,
            getCurrentRepoPath w = Some repoPath →
            truthy repoPath = true →
            In repoPath (declinedInstallations st) →
            executeGitFlowCommand w c a so se st = (Thrown declinedError, st)) as Hdeclined.
  { intros c a so se st repoPath Hrepo Hpath Hin.
    unfold executeGitFlowCommand. rewrite Hinst. simpl.
    unfold refuseNotInstalled, hasDeclinedInstallation. run. rewrite Hrepo, Hpath.
    apply includesItem_In in Hin. simpl. by rewrite Hin. }
  split; [|split; [|split]].
  - unfold executeGitFlowCommand. rewrite Hinst. simpl.
    destruct (@refuseNotInstalled_throws jstring w s) as (e & s' & E & Hc).
    pose proof (@refuseNotInstalled_tree jstring w s) as Ht.
    rewrite E in *. eauto.
  - intros repoPath. apply Hdeclined.
  - intros repoPath Hrepo Hpath Hpick s'.
    assert (In repoPath (declinedInstallations s')) as Hin.
    { subst s'. unfold executeGitFlowCommand. rewrite Hinst. simpl.
      unfold refuseNotInstalled, hasDeclinedInstallation, markInstallationDeclined,
        showErrorMessage.
      run. rewrite Hrepo, Hpath. simpl. rewrite !Hpick.
      destruct (includesItem (declinedInstallations s) repoPath) eqn:E; simpl.
      { by apply includesItem_In. }
      destruct (eqs (platform w) (js "darwin")); simpl; rewrite E; simpl;
        apply in_or_app; simpl; tauto. }
    split; [exact Hin|]. intros. by apply (Hdeclined _ _ _ _ _ repoPath).
  - intros Hrepo. unfold executeGitFlowCommand. rewrite Hinst. simpl.
    unfold refuseNotInstalled, hasDeclinedInstallation, markInstallationDeclined,
      showErrorMessage, showWarningMessage, when, show.
    run. destruct Hrepo as [-> | ->]; simpl;
      repeat match goal with
             | |- context [if ?b then _ else _] => destruct b; simpl
             | |- context [match ?o with Some _ => _ | None => _ end] => destruct o; simpl
             end; reflexivity.
Qed.

Lemma executeGitFlowCommand_not_installed_witness :
  In (js "/repo")
    (declinedInstallations
       (snd (executeGitFlowCommand notNow (js "feature list") [] true true
               initialState)))
  ∧ ∀ command' args' showOutput' showError',
      executeGitFlowCommand notNow command' args' showOutput' showError'
        (snd (executeGitFlowCommand notNow (js "feature list") [] true true
                initialState))
      = (Thrown declinedError,
         snd (executeGitFlowCommand notNow (js "feature list") [] true true
                initialState)).
Proof.
  exact (proj1 (proj2 (proj2 (executeGitFlowCommand_not_installed notNow
                         (js "feature list") [] true true initialState eq_refl)))
           (js "/repo") eq_refl eq_refl (λ _, eq_refl)).
Defined.

End Installation.

(** ** Further properties: the published snapshot *)

Section Snapshot.

Lemma publish_cons flag flags store :
  publish (flag :: flags) store = publish flags (<[fst flag := snd flag]> store).
Proof. reflexivity. Qed.

Lemma publish_app flags1 flags2 store :
  publish (flags1 ++ flags2) store = publish flags2 (publish flags1 store).
Proof. unfold publish. apply foldl_app. Qed.

Lemma publish_lookup flags store key :
  publish flags store !! key
  = match lastWritten flags key with
    | Some v => Some v
    | None => store !! key
    end.
Proof.
  revert store. induction flags as [|[k v] flags IH]; intros store; [done|].
  rewrite publish_cons, IH. simpl.
  destruct (lastWritten flags key); [done|].
  destruct (eqs k key) eqn:E.
  - apply eqs_eq in E as ->. apply lookup_insert_eq.
  - apply lookup_insert_ne. intros ->. by rewrite eqs_refl in E.
Qed.

Lemma publish_idem flags store :
  publish flags (publish flags store) = publish flags store.
Proof.
  apply map_eq. intros key. rewrite !publish_lookup.
  by destruct (lastWritten flags key).
Qed.

Lemma lastWritten_none flags key :
  (∀ flag, In flag flags → fst flag ≠ key) → lastWritten flags key = None.
Proof.
  induction flags as [|flag flags IH]; intros Hkeys; [done|]. simpl.
  rewrite IH by (intros; apply Hkeys; by right).
  rewrite eqs_neq; [done|]. apply Hkeys. by left.
Qed.

Lemma resetContexts_publish keys s :
  contextValues (snd (resetContexts keys s))
  = publish (map (λ key, (key, false)) keys) (contextValues s).
Proof.
  revert s. induction keys as [|key keys IH]; intros s; [done|].
  simpl resetContexts. run. unfold setContext. simpl.
  rewrite IH. reflexivity.
Qed.

Lemma publishedFlags_keys w flag :
  In flag (publishedFlags w) → In (fst flag) contextKeys.values.
Proof.
  unfold publishedFlags. intros [<-|[<-|Hin]]; [simpl; tauto..|].
  destruct (getCurrentBranch w) as [info|e].
  - simpl in Hin.
    repeat match goal with
           | H : _ ∨ _ |- _ => destruct H as [<-|H]
           | H : False |- _ => destruct H
           end; simpl; tauto.
  - apply in_map_iff in Hin as (key & <- & Hkey). exact Hkey.
Qed.

(** The context store after a refresh is the store before it with
    the flags of [publishedFlags] written into it; what is written
    depends on the environment alone. *)
Lemma updateContextVariables_snapshot w s :
  contextValues (snd (updateContextVariables w s))
  = publish (publishedFlags w) (contextValues s).
Proof.
  destruct (getCurrentBranch w) as [info|e] eqn:Hbranch.
  - cut (returns (updateContextVariables w) s
           (λ _ s', contextValues s' = publish (publishedFlags w) (contextValues s))).
    { by intros (a & s' & -> & Hs'). }
    unfold updateContextVariables. rewrite Hbranch.
    apply returns_try.
    repeat first
      [ apply returns_bind
      | apply returns_setContext; intros ? ?
      | apply returns_refresh; intros ? ?
      | apply returns_await
      | apply returns_getBranchList; intros ? ? ].
    repeat match goal with
           | H : contextValues ?x = _ |- context [contextValues ?x] => rewrite H
           end.
    unfold publishedFlags. rewrite Hbranch. unfold publish, listed.
    cbn [foldl app fst snd].
    repeat (f_equal; try apply list_query_stateless).
  - assert (∃ s0, updateContextVariables w s = resetContexts contextKeys.values s0
                  ∧ contextValues s0
                    = publish [(contextKeys.isInstalled, isGitFlowNextInstalled w);
                               (contextKeys.isInitialized, isGitFlowInitialized w)]
                        (contextValues s)) as (s0 & -> & Hs0).
    { unfold updateContextVariables, try_catch, await.
      unfold mbind, M_bind. simpl. rewrite Hbranch. simpl.
      eexists. split; reflexivity. }
    rewrite resetContexts_publish, Hs0.
    unfold publishedFlags. rewrite Hbranch. by rewrite publish_app.
Qed.

(** X5: refreshing twice in the same environment publishes what
    refreshing once does, and a refresh writes no key outside
    [contextKeys]. *)
Theorem updateContextVariables_idempotent (w : World) (s : State) :
  contextValues (snd (updateContextVariables w (snd (updateContextVariables w s))))
  = contextValues (snd (updateContextVariables w s))
  ∧ ∀ key, ¬ In key contextKeys.values →
      contextValues (snd (updateContextVariables w s)) !! key
      = contextValues s !! key.
Proof.
  split.
  - rewrite !updateContextVariables_snapshot. apply publish_idem.
  - intros key Hkey. rewrite updateContextVariables_snapshot, publish_lookup.
    rewrite lastWritten_none; [done|].
    intros flag Hflag <-. by apply Hkey, (publishedFlags_keys w).
Qed.

(** X6: after a refresh that could read the current branch, the flag of
    a topic kind is set exactly when the branch is of that kind, so at
    most one of them is set, and the topic flag is set exactly when
    one of them is; the installation and initialisation flags hold
    what the two checks found. *)
Theorem updateContextVariables_branch_flags (w : World) (s : State)
    (info : BranchInfo) :
  getCurrentBranch w = Returned info →
  let store := contextValues (snd (updateContextVariables w s)) in
  (∀ k, In k topicTypes → store !! isOnKey k = Some (isType info k))
  ∧ (∀ k1 k2, In k1 topicTypes → In k2 topicTypes →
       store !! isOnKey k1 = Some true → store !! isOnKey k2 = Some true →
       k1 = k2)
  ∧ (store !! contextKeys.isOnTopicBranch = Some true
     ↔ ∃ k, In k topicTypes ∧ store !! isOnKey k = Some true)
  ∧ store !! contextKeys.isInstalled = Some (isGitFlowNextInstalled w)
  ∧ store !! contextKeys.isInitialized = Some (isGitFlowInitialized w).
Proof.
  intros Hbranch store.
  assert (∀ k, In k topicTypes → store !! isOnKey k = Some (isType info k)) as Hkind.
  { intros k Hk. subst store.
    rewrite updateContextVariables_snapshot. unfold publishedFlags.
    rewrite Hbranch. unfold publish. cbn [foldl app fst snd].
    simpl in Hk. destruct Hk as [<-|[<-|[<-|[<-|[<-|[]]]]]]; simpl isOnKey;
      repeat (rewrite lookup_insert_ne by key_ne); by rewrite lookup_insert_eq. }
  assert (store !! contextKeys.isOnTopicBranch
          = Some (negb (isType info main) && negb (isType info develop)
                  && negb (isType info unknown))) as Htopic.
  { subst store. rewrite updateContextVariables_snapshot. unfold publishedFlags.
    rewrite Hbranch. unfold publish. cbn [foldl app fst snd].
    repeat (rewrite lookup_insert_ne by key_ne). by rewrite lookup_insert_eq. }
  split; [exact Hkind|]. split; [|split; [|split]].
  - intros k1 k2 Hk1 Hk2. rewrite (Hkind k1 Hk1), (Hkind k2 Hk2).
    unfold isType. intros [= H1%bool_decide_eq_true] [= H2%bool_decide_eq_true].
    congruence.
  - rewrite Htopic. split.
    + intros [= H]. exists (type info).
      assert (In (type info) topicTypes) as Hin.
      { unfold isType in H. destruct (type info); simpl in *; try tauto; discriminate. }
      split; [exact Hin|]. rewrite (Hkind _ Hin). unfold isType.
      by rewrite bool_decide_eq_true_2.
    + intros (k & Hk & Hset). rewrite (Hkind k Hk) in Hset.
      injection Hset as Hset. unfold isType in *.
      apply bool_decide_eq_true in Hset. rewrite Hset. f_equal.
      simpl in Hk. by destruct Hk as [<-|[<-|[<-|[<-|[<-|[]]]]]].
  - subst store. rewrite updateContextVariables_snapshot. unfold publishedFlags.
    rewrite Hbranch. unfold publish. cbn [foldl app fst snd].
    repeat (rewrite lookup_insert_ne by key_ne). by rewrite lookup_insert_eq.
  - subst store. rewrite updateContextVariables_snapshot. unfold publishedFlags.
    rewrite Hbranch. unfold publish. cbn [foldl app fst snd].
    repeat (rewrite lookup_insert_ne by key_ne). by rewrite lookup_insert_eq.
Qed.

Lemma updateContextVariables_branch_flags_witness :
  contextValues (snd (updateContextVariables onFeatureLogin initialState))
    !! contextKeys.isOnTopicBranch = Some true
  ↔ ∃ k, In k topicTypes
         ∧ contextValues (snd (updateContextVariables onFeatureLogin initialState))
             !! isOnKey k = Some true.
Proof.
  exact (proj1 (proj2 (proj2 (updateContextVariables_branch_flags onFeatureLogin
                                initialState
                                {| type := feature; name := js "login";
                                   fullName := js "feature/login" |}
                                eq_refl)))).
Defined.

End Snapshot.

(** ** Further properties: the list output *)

Section ListOutput.

Lemma split_cons_line c s sep :
  c ≠ sep →
  split (c :: s) sep
  = match split s sep with
    | h :: r => (c :: h) :: r
    | [] => [[c]]
    end.
Proof. intros Hc. simpl. apply N.eqb_neq in Hc. by rewrite Hc. Qed.

Lemma split_line_free line sep :
  ¬ In sep line → split line sep = [line].
Proof.
  induction line as [|c line IH]; intros Hfree; [done|].
  rewrite split_cons_line by (intros ->; apply Hfree; by left).
  rewrite IH; [done|]. intros ?. apply Hfree. by right.
Qed.

Lemma split_app_line line rest sep :
  ¬ In sep line → split (line ++ sep :: rest) sep = line :: split rest sep.
Proof.
  induction line as [|c line IH]; intros Hfree.
  - simpl. by rewrite N.eqb_refl.
  - rewrite <- app_comm_cons.
    rewrite split_cons_line by (intros ->; apply Hfree; by left).
    rewrite IH; [done|]. intros ?. apply Hfree. by right.
Qed.

(** Splitting the joined lines gives the lines back. *)
Lemma split_join lines sep :
  lines ≠ [] → (∀ line, In line lines → ¬ In sep line) →
  split (join lines [sep]) sep = lines.
Proof.
  induction lines as [|line lines IH]; [done|]. intros _ Hfree.
  destruct lines as [|line' lines].
  - simpl. apply split_line_free, Hfree. by left.
  - change (join (line :: line' :: lines) [sep])
      with (line ++ sep :: join (line' :: lines) [sep]).
    rewrite split_app_line by (apply Hfree; by left).
    rewrite IH; [done|done|]. intros l Hl. apply Hfree. by right.
Qed.

Lemma trim_stable_ends s :
  trim s = s →
  trimStart s = s ∧ trimEnd s = s.
Proof.
  intros Hs.
  assert (trimStart s = s) as Hstart.
  { rewrite <- Hs. apply trimStart_stable. apply trim_ends. }
  split; [exact Hstart|]. unfold trim in Hs. by rewrite Hstart in Hs.
Qed.

(** Indentation before a trimmed name is trimmed away. *)
Lemma trim_indented n :
  trim n = n → trim (js "  " ++ n) = n.
Proof.
  intros Hn. destruct (trim_stable_ends n Hn) as [Hstart Hend].
  unfold trim. change (trimStart (js "  " ++ n)) with (trimStart n).
  by rewrite Hstart.
Qed.

Lemma branchLines_keep line output_lines :
  truthy (trim line) = true → endsWith (trim line) (js ":") = false →
  map trim
    (filter (λ line, endsWith (trim line) (js ":") = false)
       (filter (λ line, truthy (trim line) = true) (line :: output_lines)))
  = trim line
    :: map trim
         (filter (λ line, endsWith (trim line) (js ":") = false)
            (filter (λ line, truthy (trim line) = true) output_lines)).
Proof.
  intros Hblank Hcolon.
  rewrite (filter_cons_True (λ line, truthy (trim line) = true)) by done.
  by rewrite (filter_cons_True (λ line, endsWith (trim line) (js ":") = false)).
Qed.

Lemma branchLines_drop line output_lines :
  truthy (trim line) = false ∨ endsWith (trim line) (js ":") = true →
  map trim
    (filter (λ line, endsWith (trim line) (js ":") = false)
       (filter (λ line, truthy (trim line) = true) (line :: output_lines)))
  = map trim
      (filter (λ line, endsWith (trim line) (js ":") = false)
         (filter (λ line, truthy (trim line) = true) output_lines)).
Proof.
  intros Hdrop.
  destruct (truthy (trim line)) eqn:Hblank.
  - destruct Hdrop as [?|Hcolon]; [done|].
    rewrite (filter_cons_True (λ line, truthy (trim line) = true)) by done.
    rewrite (filter_cons_False (λ line, endsWith (trim line) (js ":") = false));
      [done|]. by rewrite Hcolon.
  - rewrite (filter_cons_False (λ line, truthy (trim line) = true));
      [done|]. by rewrite Hblank.
Qed.

(** X7: parsing what the tool prints: a header line (blank, or ending
    with a colon), then one indented name per line, each line ended by
    a line feed, gives back exactly the names, provided each name is
    trimmed, not empty, free of line feeds and does not end with a
    colon. *)
Theorem branchLines_printed (header : jstring) (names : list jstring) :
  ¬ In LF header →
  trim header = [] ∨ endsWith (trim header) (js ":") = true →
  (∀ n, In n names →
     trim n = n ∧ n ≠ [] ∧ ¬ In LF n ∧ endsWith n (js ":") = false) →
  branchLines (join (header :: map (λ n, js "  " ++ n) names ++ [[]]) [LF])
  = names.
Proof.
  intros Hheader Hhead Hnames. unfold branchLines.
  rewrite split_join; [|done|].
  2:{ intros line [<-|Hline]; [done|].
      apply in_app_or in Hline as [Hline|[<-|[]]]; [|by intros []].
      apply in_map_iff in Hline as (n & <- & Hn).
      destruct (Hnames n Hn) as (_ & _ & Hfree & _).
      intros [H|[H|H]]; [by vm_compute in H..|done]. }
  rewrite branchLines_drop by (destruct Hhead as [->|?]; auto).
  clear Hheader Hhead. induction names as [|n names IH].
  - reflexivity.
  - destruct (Hnames n (or_introl eq_refl)) as (Htrim & Hne & _ & Hcolon).
    change (map (λ n0, js "  " ++ n0) (n :: names) ++ [[]])
      with ((js "  " ++ n) :: (map (λ n0, js "  " ++ n0) names ++ [[]])).
    rewrite branchLines_keep; rewrite trim_indented by done;
      [|by destruct n|done].
    f_equal. apply IH. intros n' Hn'. apply Hnames. by right.
Qed.

Lemma branchLines_printed_witness :
  branchLines
    (join (js "Feature branches:"
           :: map (λ n, js "  " ++ n) [js "login"; js "search"] ++ [[]]) [LF])
  = [js "login"; js "search"].
Proof.
  apply (branchLines_printed (js "Feature branches:") [js "login"; js "search"]).
  - vm_compute. intuition discriminate.
  - right. reflexivity.
  - intros n [<-|[<-|[]]];
      (split; [reflexivity|]; split; [key_ne|]; split; [|reflexivity];
       vm_compute; intuition discriminate).
Defined.

End ListOutput.

(** ** Further properties: the resolvers *)

Section ResolverAxes.

Lemma eqs_app_head p a b : eqs (p ++ a) (p ++ b) = eqs a b.
Proof. induction p as [|c p IH]; simpl; [done|]. by rewrite N.eqb_refl. Qed.

(** A key without a dot is not the key of a branch type. *)
Lemma eqs_dotless a branchType rest :
  ¬ In 46 a → eqs a (branchType ++ js "." ++ rest) = false.
Proof.
  intros Hdot. apply eqs_neq. intros ->. apply Hdot.
  apply in_or_app. right. by left.
Qed.

Lemma get_string_withString w key value key' dflt :
  eqs key' key = false →
  get_string (withString w key value) key' dflt = get_string w key' dflt.
Proof. unfold get_string. simpl. by intros ->. Qed.

Lemma strategy_key_other branchType op suffix :
  In suffix [js "tagPrefix"; js "keepBranch"; js "fastForward"; js "startPoint"] →
  eqs (branchType ++ js "." ++ suffix)
      (branchType ++ js "." ++ operationName op ++ js "Strategy") = false.
Proof.
  intros Hsuffix. rewrite eqs_app_head. simpl in Hsuffix.
  destruct op; destruct Hsuffix as [<-|[<-|[<-|[<-|[]]]]]; reflexivity.
Qed.

(** X8: independence of the axes: whatever the merge strategy setting of
    an operation is (set to any value, or not set), the tag options,
    the retention options, the fast-forward options and the
    preserve-merges option of the branch type are the same; and no
    boolean setting changes the merge strategy. *)
Theorem resolvers_ignore_strategy (w : World) (branchType : jstring)
    (op : operation) (value : option jstring) :
  let w' := withString w
              (branchType ++ js "." ++ operationName op ++ js "Strategy") value in
  (∀ branchName s,
     getTagOptions w' branchType branchName s
     = getTagOptions w branchType branchName s)
  ∧ getBranchRetentionOptions w' branchType = getBranchRetentionOptions w branchType
  ∧ getFastForwardOptions w' branchType = getFastForwardOptions w branchType
  ∧ getPreserveMergesOption w' branchType = getPreserveMergesOption w branchType
  ∧ ∀ key flag op',
      getMergeStrategy (withBoolean w key flag) branchType op'
      = getMergeStrategy w branchType op'.
Proof.
  intros w'. subst w'.
  split; [|split; [|split; [|split]]].
  - intros branchName s. unfold getTagOptions.
    rewrite (get_string_withString w _ _ (js "gpgSigningKey"))
      by (apply eqs_dotless; vm_compute; intuition discriminate).
    change (branchType ++ js ".tagPrefix")
      with (branchType ++ js "." ++ js "tagPrefix").
    rewrite get_string_withString by (apply strategy_key_other; simpl; tauto).
    reflexivity.
  - unfold getBranchRetentionOptions.
    change (branchType ++ js ".keepBranch")
      with (branchType ++ js "." ++ js "keepBranch").
    rewrite get_string_withString by (apply strategy_key_other; simpl; tauto).
    reflexivity.
  - unfold getFastForwardOptions.
    change (branchType ++ js ".fastForward")
      with (branchType ++ js "." ++ js "fastForward").
    rewrite get_string_withString by (apply strategy_key_other; simpl; tauto).
    reflexivity.
  - reflexivity.
  - reflexivity.
Qed.

(** X9: the merge strategy gives at most one flag: [--rebase] or
    [--squash] on finish, [--rebase] on update. A [squash] configured
    for update gives no flag, as do [merge], [use-git-config], the
    empty string and any other value. *)
Theorem getMergeStrategy_flags (w : World) (branchType : jstring) :
  (∀ op, (length (getMergeStrategy w branchType op) ≤ 1)%nat)
  ∧ (∀ flag, In flag (getMergeStrategy w branchType update) → flag = js "--rebase")
  ∧ (∀ flag, In flag (getMergeStrategy w branchType finish) →
       flag = js "--rebase" ∨ flag = js "--squash")
  ∧ (∀ op flag,
       In flag (getMergeStrategy w branchType op) →
       flag = js "--" ++ get_string w (branchType ++ js "." ++ operationName op
                                        ++ js "Strategy") (js "merge")).
Proof.
  split; [|split; [|split]].
  - intros op. unfold getMergeStrategy.
    destruct (_ || _); [simpl; lia|]. destruct op; split_ifs; simpl; lia.
  - intros flag. unfold getMergeStrategy.
    destruct (_ || _); [done|]. split_ifs; simpl; intuition.
  - intros flag. unfold getMergeStrategy.
    destruct (_ || _); [done|]. split_ifs; simpl; intuition.
  - intros op flag. unfold getMergeStrategy.
    destruct (_ || _); [done|].
    destruct op; simpl;
      repeat match goal with
             | |- context [if eqs ?a ?b then _ else _] =>
                 let E := fresh "E" in destruct (eqs a b) eqn:E; simpl
             end;
      try done;
      intros [<-|[]];
      match goal with
      | E : eqs _ _ = true |- _ => apply eqs_eq in E; by rewrite E
      end.
Qed.

(** In the arguments of a tagged finish, [--notag] occurs only as a
    value. *)
Lemma getTagOptions_notag_is_value_witness :
  trim (get_string prefixSpelledNotag (js "release" ++ js ".tagPrefix") [])
  = js "--notag"
  ∨ trim (get_string prefixSpelledNotag (js "gpgSigningKey") []) = js "--notag"
  ∨ ∃ branchName' tagMessage,
      inputBox prefixSpelledNotag (js "Enter tag message")
        (js "Release " ++ branchName') = Some tagMessage
      ∧ trim tagMessage = js "--notag".
Proof.
  apply (getTagOptions_notag_is_value prefixSpelledNotag (js "release") None
           initialState [js "--tag"; js "--tagprefix"; js "--notag"] initialState).
  - reflexivity.
  - reflexivity.
  - simpl. tauto.
Defined.

End ResolverAxes.

(** ** Further properties: the surfaced message *)

Section MessageShape.

Lemma matchError_Some raw m :
  matchError raw = Some m → ∃ before s, raw = before ++ s ∧ markerAt s m.
Proof.
  induction raw as [|c raw IH].
  - intros H. by vm_compute in H.
  - rewrite matchError_cons.
    destruct (errorAt (c :: raw)) as [m'|] eqn:E.
    + intros [= ->]. exists [], (c :: raw). split; [done|]. by apply errorAt_marker.
    + intros (before & s & -> & Hs)%IH. by exists (c :: before), s.
Qed.

Lemma includes_app before p rest : includes (before ++ p ++ rest) p = true.
Proof.
  assert (∀ s, includes s p
               = startsWith s p
                 || match s with [] => false | _ :: t => includes t p end) as Hstep
    by (by intros []).
  induction before as [|c before IH].
  - rewrite app_nil_l, Hstep. by rewrite startsWith_app.
  - rewrite <- app_comm_cons, Hstep, IH. apply orb_true_r.
Qed.

(** X10: the surfaced message is either a single line cut out of the
    failure text, not empty, free of line terminators and preceded
    there by [Error: ], or (when the expression matches nowhere) a
    trimmed text. *)
Theorem extractErrorMessage_shape (raw : jstring) :
  (extractErrorMessage raw ≠ []
   ∧ Forall (λ c, isLineTerminator c = false) (extractErrorMessage raw)
   ∧ includes raw (js "Error: " ++ extractErrorMessage raw) = true)
  ∨ (matchError raw = None
     ∧ trim (extractErrorMessage raw) = extractErrorMessage raw).
Proof.
  unfold extractErrorMessage.
  destruct (matchError raw) as [m|] eqn:E.
  - left. apply matchError_Some in E as (before & s & -> & rest & -> & Hne & Hrun & _).
    repeat split; [done..|].
    rewrite (app_assoc (js "Error: ")). apply includes_app.
  - right. split; [done|]. apply trim_idem.
Qed.

End MessageShape.

(** ** Further properties: the command handlers *)

Section Handlers.

Lemma bind_returned {A B} (c : M A) (f : A → M B) s a s' :
  c s = (Returned a, s') → (c ≫= f) s = f a s'.
Proof. intros Hc. unfold mbind, M_bind. by rewrite Hc. Qed.

Lemma bind_thrown {A B} (c : M A) (f : A → M B) s e s' :
  c s = (Thrown e, s') → (c ≫= f) s = (Thrown e, s').
Proof. intros Hc. unfold mbind, M_bind. by rewrite Hc. Qed.

Lemma bind_cong {A B} (c1 c2 : M A) (f g : A → M B) s :
  c1 s = c2 s → (∀ a s', f a s' = g a s') → (c1 ≫= f) s = (c2 ≫= g) s.
Proof.
  intros Hc Hf. unfold mbind, M_bind. rewrite Hc.
  destruct (c2 s) as [[a|e] s']; [apply Hf|done].
Qed.

(** A handler wrapped in [try { } catch { }] never throws. *)
Lemma ignoring_run body s : ignoring body s = (Returned tt, snd (body s)).
Proof.
  unfold ignoring, try_catch. by destruct (body s) as [[[]|e] s'].
Qed.

Lemma quiet_ret {A} (a : A) : quiet (mret a : M A).
Proof. by intros s. Qed.

Lemma quiet_throw {A} e : quiet (throw e : M A).
Proof. by intros s. Qed.

Lemma quiet_await {A} (o : outcome A) : quiet (await o).
Proof. by intros s. Qed.

Lemma quiet_show e : quiet (show e).
Proof. by intros s. Qed.

Lemma quiet_bind {A B} (c : M A) (f : A → M B) :
  quiet c → (∀ a, quiet (f a)) → quiet (c ≫= f).
Proof.
  intros Hc Hf s. unfold mbind, M_bind.
  destruct (Hc s) as [Hc1 Hc2].
  destruct (c s) as [[a|e] s']; simpl in *; [|done].
  destruct (Hf a s') as [Hf1 Hf2]. split; congruence.
Qed.

Lemma quiet_try {A} (c : M A) h :
  quiet c → (∀ e, quiet (h e)) → quiet (try_catch c h).
Proof.
  intros Hc Hh s. unfold try_catch.
  destruct (Hc s) as [Hc1 Hc2].
  destruct (c s) as [[a|e] s']; simpl in *; [done|].
  destruct (Hh e s') as [Hh1 Hh2]. split; congruence.
Qed.

Lemma quiet_ignoring body : quiet body → quiet (ignoring body).
Proof. intros Hbody. apply quiet_try; [done|]. intros. apply quiet_ret. Qed.

Lemma quiet_executeGitFlowCommand w command args showOutput showError :
  quiet (executeGitFlowCommand w command args showOutput showError).
Proof.
  intros s. split;
    [apply executeGitFlowCommand_context|apply executeGitFlowCommand_tree].
Qed.

Lemma quiet_showInputBox w prompt value : quiet (showInputBox w prompt value).
Proof. by intros s. Qed.

Lemma quiet_showWarningMessage w text items :
  quiet (showWarningMessage w text items).
Proof. by intros s. Qed.

Lemma quiet_showBranchSelection w branches prompt :
  quiet (showBranchSelection w branches prompt).
Proof. intros s. by destruct branches. Qed.

Lemma quiet_getTagOptions w branchType branchName :
  quiet (getTagOptions w branchType branchName).
Proof.
  intros s. unfold getTagOptions, showInputBox. run.
  destruct (get_boolean w (branchType ++ js ".createTag") false); [|done].
  destruct branchName as [branchName|]; simpl;
    [destruct (get_boolean w (js "promptForTagMessage") false && truthy branchName);
     simpl;
     [destruct (inputBox w _ _) as [tagMessage|]; simpl|]|];
    split_ifs; done.
Qed.

Ltac quiet_step :=
  first
    [ apply quiet_ignoring
    | apply quiet_bind; [|intros ?]
    | apply quiet_executeGitFlowCommand
    | apply quiet_showInputBox
    | apply quiet_showWarningMessage
    | apply quiet_showBranchSelection
    | apply quiet_getTagOptions
    | apply quiet_await
    | apply quiet_show
    | apply quiet_ret
    | match goal with
      | |- quiet (match ?x with _ => _ end) => destruct x
      end ].

(** X11: checking out, renaming and updating a branch, listing branches,
    the shorthand commands and (for every kind but [feature])
    deleting a branch never refresh the published context: whatever
    the environment answers, the context keys and the tree view are
    afterwards as before. *)
Theorem handlers_without_refresh (k : BranchType) (w : World) :
  quiet (checkoutCommand k w)
  ∧ quiet (renameCommand k w)
  ∧ quiet (updateCommand k w)
  ∧ quiet (listCommand k w)
  ∧ quiet (featureListCommand w)
  ∧ (k ≠ feature → quiet (deleteCommand k w))
  ∧ (∀ command, quiet (plainCommand command w))
  ∧ quiet (shorthandDeleteCommand w)
  ∧ quiet (shorthandRenameCommand w).
Proof.
  split; [|split; [|split; [|split; [|split; [|split; [|split; [|split]]]]]]].
  - unfold checkoutCommand. repeat quiet_step.
  - unfold renameCommand, promptForInput. repeat quiet_step.
  - unfold updateCommand. repeat quiet_step.
  - unfold listCommand. repeat quiet_step.
  - unfold featureListCommand. repeat quiet_step.
  - intros Hk. unfold deleteCommand. destruct k; [done|..]; repeat quiet_step.
  - intros command. unfold plainCommand. repeat quiet_step.
  - unfold shorthandDeleteCommand. repeat quiet_step.
  - unfold shorthandRenameCommand, promptForInput. repeat quiet_step.
Qed.

Lemma configureRemote_run w s : configureRemote w s = (Returned tt, s).
Proof.
  unfold configureRemote. destruct (workspaceFolders w); [done|].
  rewrite ignoring_run. unfold await, mbind, M_bind.
  by destruct (execAsync w _ _).
Qed.

Lemma configureDeleteRemote_run w branchType s :
  configureDeleteRemote w branchType s = (Returned tt, s).
Proof.
  unfold configureDeleteRemote. destruct (workspaceFolders w); [done|].
  rewrite ignoring_run. unfold await, mbind, M_bind.
  by destruct (execAsync w _ _).
Qed.

(** A command whose process fails: the failure is thrown on. *)
Lemma executeGitFlowCommand_fails w command args showOutput showError s
    folder others e :
  isGitFlowNextInstalled w = true →
  workspaceFolders w = folder :: others →
  execAsync w (commandLine command args) (Some folder) = Thrown e →
  ∃ s', executeGitFlowCommand w command args showOutput showError s = (Thrown e, s')
        ∧ contextValues s' = contextValues s
        ∧ treeRefreshes s' = treeRefreshes s.
Proof.
  intros Hinst Hw Hexec.
  pose proof (quiet_executeGitFlowCommand w command args showOutput showError s)
    as [Hc Ht].
  assert (fst (executeGitFlowCommand w command args showOutput showError s)
          = Thrown e) as Hfst.
  { unfold executeGitFlowCommand. rewrite Hinst, Hw.
    unfold try_catch, await, mbind, M_bind.
    unfold commandLine in Hexec. rewrite Hexec.
    unfold when. simpl. by destruct (showError && _). }
  destruct (executeGitFlowCommand _ _ _ _ _ _) as [o s']. simpl in *.
  subst o. eauto.
Qed.

(** A command whose process succeeds: its standard output comes
    back. *)
Lemma executeGitFlowCommand_succeeds w command args showOutput showError s
    folder others stdout stderr :
  isGitFlowNextInstalled w = true →
  workspaceFolders w = folder :: others →
  execAsync w (commandLine command args) (Some folder) = Returned (stdout, stderr) →
  ∃ s', executeGitFlowCommand w command args showOutput showError s
        = (Returned stdout, s')
        ∧ contextValues s' = contextValues s
        ∧ treeRefreshes s' = treeRefreshes s.
Proof.
  intros Hinst Hw Hexec.
  pose proof (quiet_executeGitFlowCommand w command args showOutput showError s)
    as [Hc Ht].
  assert (fst (executeGitFlowCommand w command args showOutput showError s)
          = Returned stdout) as Hfst.
  { apply executeGitFlowCommand_returns. split; [done|]. eauto. }
  destruct (executeGitFlowCommand _ _ _ _ _ _) as [o s']. simpl in *.
  subst o. eauto.
Qed.

Lemma tool_missing_throws w command args showOutput
    showError s :
  isGitFlowNextInstalled w = false →
  ∃ e s', executeGitFlowCommand w command args showOutput showError s
          = (Thrown e, s').
Proof.
  intros Hinst. unfold executeGitFlowCommand. rewrite Hinst. simpl.
  destruct (@refuseNotInstalled_throws jstring w s) as (e & s' & E & _). eauto.
Qed.

Lemma isType_true info k : type info = k → isType info k = true.
Proof. intros. unfold isType. by apply bool_decide_eq_true_2. Qed.

(** With the repository unchanged by the command, the handlers are
    those of the static environment. *)
Lemma handlers_then_same (k : BranchType) (flag verb : jstring) (w : World) :
  finishCommandThen k w w = finishCommand k w
  ∧ deleteCommandThen k w w = deleteCommand k w
  ∧ finishControlCommandThen flag verb w w = finishControlCommand flag verb w.
Proof. by repeat split. Qed.

(** X12: finishing the branch that is checked out. The handler runs
    [git flow <kind> finish <name>] followed by the strategy, the
    fast-forward, the preserve-merges, the tag and the retention
    arguments, in this order. It never throws. When that command
    fails, nothing is refreshed: the context keys and the tree view
    stay as they were. When it succeeds, the context is refreshed
    once, from the repository as the finish leaves it. *)
Theorem finishCommand_current (k : BranchType) (w after : World) (s s1 : State)
    (info : BranchInfo) (folder : jstring) (others tagArgs : list jstring) :
  getCurrentBranch w = Returned info →
  type info = k →
  isGitFlowNextInstalled w = true →
  workspaceFolders w = folder :: others →
  getTagOptions w (typeName k) (Some (name info)) s = (Returned tagArgs, s1) →
  let line := commandLine (typeName k ++ js " finish")
                ([name info] ++ finishArgs w k tagArgs) in
  fst (finishCommandThen k w after s) = Returned tt
  ∧ (∀ e, execAsync w line (Some folder) = Thrown e →
       contextValues (snd (finishCommandThen k w after s)) = contextValues s
       ∧ treeRefreshes (snd (finishCommandThen k w after s)) = treeRefreshes s)
  ∧ (∀ stdout stderr,
       execAsync w line (Some folder) = Returned (stdout, stderr) →
       contextValues (snd (finishCommandThen k w after s))
       = publish (publishedFlags after) (contextValues s)
       ∧ treeRefreshes (snd (finishCommandThen k w after s)) = S (treeRefreshes s)).
Proof.
  intros Hbranch Hk Hinst Hw Htag line.
  pose proof (quiet_getTagOptions w (typeName k) (Some (name info)) s) as [Hc1 Ht1].
  rewrite Htag in Hc1, Ht1. simpl in Hc1, Ht1.
  unfold finishCommandThen. rewrite ignoring_run. split; [done|].
  erewrite bind_returned by apply configureRemote_run.
  erewrite bind_returned by apply configureDeleteRemote_run.
  erewrite bind_returned by (unfold await; by rewrite Hbranch).
  rewrite (isType_true info k Hk).
  erewrite bind_returned by exact Htag.
  split.
  - intros e Hexec.
    destruct (executeGitFlowCommand_fails w (typeName k ++ js " finish")
                ([name info] ++ finishArgs w k tagArgs) true true s1
                folder others e Hinst Hw Hexec) as (s2 & E & Hc2 & Ht2).
    erewrite bind_thrown by exact E. simpl. split; congruence.
  - intros stdout stderr Hexec.
    destruct (executeGitFlowCommand_succeeds w (typeName k ++ js " finish")
                ([name info] ++ finishArgs w k tagArgs) true true s1
                folder others stdout stderr Hinst Hw Hexec) as (s2 & E & Hc2 & Ht2).
    erewrite bind_returned by exact E. cbn [snd].
    rewrite updateContextVariables_snapshot, updateContextVariables_tree.
    split; congruence.
Qed.

(** By default the finish of [feature/login] is
    [git flow feature finish login --no-ff --notag]. When it fails
    nothing is published. When it succeeds and leaves the repository on
    [develop] with no feature left, one refresh publishes that no
    feature branch is checked out and that no feature exists. *)
Lemma finishCommand_current_witness :
  (contextValues (snd (finishCommandThen feature finishFails onDevelop initialState))
   = ∅
   ∧ treeRefreshes (snd (finishCommandThen feature finishFails onDevelop
                           initialState)) = 0%nat)
  ∧ (contextValues (snd (finishCommandThen feature onFeatureLogin onDevelop
                           initialState))
       !! contextKeys.isOnFeatureBranch = Some false
     ∧ contextValues (snd (finishCommandThen feature onFeatureLogin onDevelop
                             initialState))
         !! contextKeys.featuresExist = Some false
     ∧ treeRefreshes (snd (finishCommandThen feature onFeatureLogin onDevelop
                             initialState)) = 1%nat).
Proof.
  split.
  - refine (proj1 (proj2 (finishCommand_current feature finishFails onDevelop
                            initialState initialState
                            {| type := feature; name := js "login";
                               fullName := js "feature/login" |}
                            (js "/repo") [] [js "--notag"] _ _ _ _ _))
              (Error (js "Error: merge conflict")) _); reflexivity.
  - destruct (proj2 (proj2 (finishCommand_current feature onFeatureLogin onDevelop
                              initialState initialState
                              {| type := feature; name := js "login";
                                 fullName := js "feature/login" |}
                              (js "/repo") [] [js "--notag"]
                              eq_refl eq_refl eq_refl eq_refl eq_refl))
                (js "feature/login" ++ [LF]) [] eq_refl) as [Hcontext Htree].
    rewrite Hcontext, Htree, !publish_lookup. by repeat split.
Defined.

(** X13: continuing or aborting a finish. Outside a repository the
    handler does nothing and shows nothing; on [main], [develop] or
    an unknown branch it only shows a warning; on a topic branch it
    runs [git flow <kind> finish <flag>] for the kind of the branch
    that is checked out, refreshes the context once, from the
    repository as the command leaves it, when the command succeeds, and
    not at all when it fails. *)
Theorem finishControlCommand_guard (flag verb : jstring) (w after : World)
    (s : State) :
  (∀ e, getCurrentBranch w = Thrown e →
     finishControlCommandThen flag verb w after s = (Returned tt, s))
  ∧ (∀ info,
       getCurrentBranch w = Returned info → onTopicBranch info = false →
       finishControlCommandThen flag verb w after s
       = (Returned tt,
          snd (show (WarningMessage
                       (js "Cannot " ++ verb
                        ++ js " finish on main/develop or unknown branch") []) s)))
  ∧ (∀ info folder others,
       getCurrentBranch w = Returned info → onTopicBranch info = true →
       isGitFlowNextInstalled w = true →
       workspaceFolders w = folder :: others →
       let line := commandLine (typeName (type info) ++ js " finish") [flag] in
       (∀ e, execAsync w line (Some folder) = Thrown e →
          contextValues (snd (finishControlCommandThen flag verb w after s))
          = contextValues s
          ∧ treeRefreshes (snd (finishControlCommandThen flag verb w after s))
            = treeRefreshes s)
       ∧ (∀ stdout stderr,
            execAsync w line (Some folder) = Returned (stdout, stderr) →
            contextValues (snd (finishControlCommandThen flag verb w after s))
            = publish (publishedFlags after) (contextValues s)
            ∧ treeRefreshes (snd (finishControlCommandThen flag verb w after s))
              = S (treeRefreshes s))).
Proof.
  unfold finishControlCommandThen. rewrite ignoring_run.
  split; [|split].
  - intros e Hbranch.
    erewrite bind_thrown by (unfold await; by rewrite Hbranch). done.
  - intros info Hbranch Htopic.
    erewrite bind_returned by (unfold await; by rewrite Hbranch).
    by rewrite Htopic.
  - intros info folder others Hbranch Htopic Hinst Hw. cbv zeta.
    erewrite bind_returned by (unfold await; by rewrite Hbranch).
    rewrite Htopic. split.
    + intros e Hexec.
      destruct (executeGitFlowCommand_fails w (typeName (type info) ++ js " finish")
                  [flag] true true s folder others e Hinst Hw Hexec)
        as (s2 & E & Hc2 & Ht2).
      erewrite bind_thrown by exact E. done.
    + intros stdout stderr Hexec.
      destruct (executeGitFlowCommand_succeeds w
                  (typeName (type info) ++ js " finish")
                  [flag] true true s folder others stdout stderr Hinst Hw Hexec)
        as (s2 & E & Hc2 & Ht2).
      erewrite bind_returned by exact E. cbn [snd].
      rewrite updateContextVariables_snapshot, updateContextVariables_tree.
      split; congruence.
Qed.

(** On a detached HEAD, continuing only warns. On [feature/login] a
    continue that fails publishes nothing, and one that succeeds and
    leaves the repository on [develop] publishes, in one refresh, that
    no topic branch is checked out. *)
Lemma finishControlCommand_guard_witness :
  finishControlCommandThen (js "--continue") (js "continue") detachedHead
    detachedHead initialState
  = (Returned tt,
     snd (show (WarningMessage
                  (js "Cannot continue finish on main/develop or unknown branch")
                  []) initialState))
  ∧ (contextValues (snd (finishControlCommandThen (js "--continue") (js "continue")
                           finishFails onDevelop initialState)) = ∅
     ∧ treeRefreshes (snd (finishControlCommandThen (js "--continue")
                             (js "continue") finishFails onDevelop initialState))
       = 0%nat)
  ∧ (contextValues (snd (finishControlCommandThen (js "--continue") (js "continue")
                           onFeatureLogin onDevelop initialState))
       !! contextKeys.isOnTopicBranch = Some false
     ∧ treeRefreshes (snd (finishControlCommandThen (js "--continue")
                             (js "continue") onFeatureLogin onDevelop
                             initialState)) = 1%nat).
Proof.
  split; [|split].
  - exact (proj1 (proj2 (finishControlCommand_guard (js "--continue")
                           (js "continue") detachedHead detachedHead initialState))
             {| type := unknown; name := []; fullName := [] |} eq_refl eq_refl).
  - exact (proj1 (proj2 (proj2 (finishControlCommand_guard (js "--continue")
                                  (js "continue") finishFails onDevelop
                                  initialState))
                    {| type := feature; name := js "login";
                       fullName := js "feature/login" |}
                    (js "/repo") [] eq_refl eq_refl eq_refl eq_refl)
             (Error (js "Error: merge conflict")) eq_refl).
  - destruct (proj2 (proj2 (proj2 (finishControlCommand_guard (js "--continue")
                                     (js "continue") onFeatureLogin onDevelop
                                     initialState))
                       {| type := feature; name := js "login";
                          fullName := js "feature/login" |}
                       (js "/repo") [] eq_refl eq_refl eq_refl eq_refl)
                (js "feature/login" ++ [LF]) [] eq_refl) as [Hcontext Htree].
    rewrite Hcontext, Htree, publish_lookup. by split.
Defined.

(** X14: listing features never throws, whereas the list handlers of the
    other kinds have no [try]: they throw whenever their command does,
    as when no folder is open or the tool is missing. *)
Theorem listCommand_throws (k : BranchType) (w : World) (s : State) :
  fst (featureListCommand w s) = Returned tt
  ∧ (∀ e, fst (listCommand k w s) = Thrown e
          ↔ fst (executeGitFlowCommand w (typeName k ++ js " list") [] true true s)
            = Thrown e)
  ∧ (isGitFlowNextInstalled w = true → workspaceFolders w = [] →
     fst (listCommand k w s) = Thrown noWorkspace)
  ∧ (isGitFlowNextInstalled w = false → ∃ e, fst (listCommand k w s) = Thrown e).
Proof.
  assert (∀ e, fst (listCommand k w s) = Thrown e
               ↔ fst (executeGitFlowCommand w (typeName k ++ js " list") [] true true s)
                 = Thrown e) as Hiff.
  { intros e. unfold listCommand, mbind, M_bind.
    destruct (executeGitFlowCommand _ _ _ _ _ _) as [[out|e'] s']; simpl;
      split; intros H; (discriminate || by injection H as ->). }
  split; [|split; [exact Hiff|split]].
  - unfold featureListCommand. by rewrite ignoring_run.
  - intros Hinst Hw. apply Hiff. unfold executeGitFlowCommand.
    by rewrite Hinst, Hw.
  - intros Hinst.
    destruct (tool_missing_throws w
                (typeName k ++ js " list") [] true true s Hinst) as (e & s' & E).
    exists e. apply Hiff. by rewrite E.
Qed.

Lemma showInputBox_run w prompt value s :
  showInputBox w prompt value s
  = (Returned (inputBox w prompt value), snd (show (InputBox prompt value) s)).
Proof. reflexivity. Qed.

Lemma showWarningMessage_run w text items s :
  showWarningMessage w text items s
  = (Returned (pickItem w text items), snd (show (WarningMessage text items) s)).
Proof. reflexivity. Qed.

(** X15: starting a branch from an explicit base. When the user names the
    branch, answers [Yes] and enters a base that is not blank, the
    handler runs [git flow <kind> start <name> <trimmed base>]
    (followed by [--fetch] when configured) and then refreshes; the
    configured start point of the kind plays no part: with any other
    value for it the handler does the same. *)
Theorem startCommand_explicit_base (k : BranchType) (w : World) (s : State)
    (featureName base : jstring) :
  inputBox w (js "Enter " ++ typeName k ++ js " " ++ nounOf k) [] = Some featureName →
  truthy featureName = true →
  pickItem w (js "Start from a specific commit, tag, or branch?") [js "No"; js "Yes"]
  = Some (js "Yes") →
  inputBox w (js "Enter base commit, tag, or branch (leave empty to use default)") []
  = Some base →
  truthy (trim base) = true →
  startCommand k w s
  = ignoring
      (configureRemote w ;;
       executeGitFlowCommand w (typeName k ++ js " start")
         ([featureName; trim base] ++ shouldFetchBeforeStart w) true true ;;
       updateContextVariables w)
      (snd (show (InputBox
                    (js "Enter base commit, tag, or branch (leave empty to use default)")
                    [])
              (snd (show (InputBox (js "Enter " ++ typeName k ++ js " " ++ nounOf k) [])
                      s))))
  ∧ ∀ value,
      startCommand k (withString w (typeName k ++ js ".startPoint") value) s
      = startCommand k w s.
Proof.
  intros Hname Hgiven Hpick Hbase Hblank.
  assert (∀ w0,
            inputBox w0 = inputBox w → pickItem w0 = pickItem w →
            startCommand k w0 s
            = ignoring
                (configureRemote w0 ;;
                 executeGitFlowCommand w0 (typeName k ++ js " start")
                   ([featureName; trim base] ++ shouldFetchBeforeStart w0) true true ;;
                 updateContextVariables w0)
                (snd (show (InputBox
                              (js "Enter base commit, tag, or branch (leave empty to use default)")
                              [])
                        (snd (show (InputBox
                                      (js "Enter " ++ typeName k ++ js " " ++ nounOf k) [])
                                s))))) as Hrun.
  { intros w0 Hinput Hpicks. unfold startCommand. rewrite !ignoring_run. f_equal.
    unfold promptForInput, showQuickPick.
    erewrite bind_returned by apply showInputBox_run.
    rewrite Hinput, Hname. unfold given. rewrite Hgiven.
    erewrite bind_returned by reflexivity.
    rewrite Hpicks, Hpick.
    replace (chose (Some (js "Yes")) (js "Yes")) with true by reflexivity.
    erewrite (bind_returned (showInputBox w0 _ _ ≫= _))
      by (erewrite bind_returned by apply showInputBox_run;
          rewrite Hinput, Hbase, (truthy_trim base Hblank), Hblank; reflexivity).
    reflexivity. }
  split; [by apply Hrun|].
  intros value. rewrite (Hrun w), (Hrun (withString w _ value)) by done.
  rewrite !ignoring_run. f_equal.
  erewrite (bind_returned (configureRemote w)) by apply configureRemote_run.
  erewrite (bind_returned (configureRemote (withString w _ value)))
    by apply configureRemote_run.
  reflexivity.
Qed.

(** The feature [v1] is started from the base [v1] that the user
    enters: the start command runs with that base, its output is shown
    and the refresh follows; a configured start point [develop] changes
    nothing. *)
Lemma startCommand_explicit_base_witness :
  startCommand feature explicitBase initialState
  = ignoring
      (configureRemote explicitBase ;;
       executeGitFlowCommand explicitBase (js "feature start")
         [js "v1"; js "v1"] true true ;;
       updateContextVariables explicitBase)
      (snd (show (InputBox
                    (js "Enter base commit, tag, or branch (leave empty to use default)")
                    [])
              (snd (show (InputBox (js "Enter feature name") []) initialState))))
  ∧ startCommand feature
      (withString explicitBase (typeName feature ++ js ".startPoint")
         (Some (js "develop")))
      initialState
    = startCommand feature explicitBase initialState
  ∧ shown (snd (startCommand feature explicitBase initialState))
    = [InputBox (js "Enter feature name") [];
       InputBox (js "Enter base commit, tag, or branch (leave empty to use default)") [];
       InformationMessage (js "Git Flow: started")]
  ∧ treeRefreshes (snd (startCommand feature explicitBase initialState)) = 1%nat.
Proof.
  pose proof (startCommand_explicit_base feature explicitBase initialState
                (js "v1") (js "v1") eq_refl eq_refl eq_refl eq_refl eq_refl)
    as [Hrun Hpoint].
  split; [exact Hrun|]. split; [exact (Hpoint (Some (js "develop")))|].
  split; [vm_compute; reflexivity|]. vm_compute. reflexivity.
Defined.

Lemma get_boolean_withBoolean w key value key' dflt :
  eqs key' key = false →
  get_boolean (withBoolean w key value) key' dflt = get_boolean w key' dflt.
Proof. unfold get_boolean. simpl. by intros ->. Qed.

Lemma autoUpdate_key_other branchType suffix :
  In suffix [js "createTag"; js "preserveMerges"; js "deleteRemote"] →
  eqs (branchType ++ js "." ++ suffix) (branchType ++ js "." ++ js "autoUpdate")
  = false.
Proof.
  intros Hsuffix. rewrite eqs_app_head. simpl in Hsuffix.
  destruct Hsuffix as [<-|[<-|[<-|[]]]]; reflexivity.
Qed.

(** X16: the [autoUpdate] setting of a kind is read by no handler: with
    any value for it, finishing, updating and starting a branch of
    the kind do the same. *)
Theorem autoUpdate_unused (k : BranchType) (w : World) (value : option bool)
    (s : State) :
  let w' := withBoolean w (typeName k ++ js "." ++ js "autoUpdate") value in
  finishCommand k w' s = finishCommand k w s
  ∧ updateCommand k w' s = updateCommand k w s
  ∧ startCommand k w' s = startCommand k w s.
Proof.
  intros w'. subst w'.
  assert (∀ tagArgs,
            finishArgs (withBoolean w (typeName k ++ js "." ++ js "autoUpdate") value)
              k tagArgs
            = finishArgs w k tagArgs) as Hargs.
  { intros tagArgs. unfold finishArgs. f_equal. f_equal. f_equal; [|f_equal].
    - unfold getPreserveMergesOption.
      change (typeName k ++ js ".preserveMerges")
        with (typeName k ++ js "." ++ js "preserveMerges").
      rewrite get_boolean_withBoolean by (apply autoUpdate_key_other; simpl; tauto).
      reflexivity.
    - unfold getBranchRetentionOptions.
      rewrite (get_boolean_withBoolean w _ _ (js "forceDelete"))
        by (apply eqs_dotless; vm_compute; intuition discriminate).
      reflexivity. }
  assert (∀ branchName,
            getTagOptions (withBoolean w (typeName k ++ js "." ++ js "autoUpdate") value)
              (typeName k) branchName
            = getTagOptions w (typeName k) branchName) as Htag.
  { intros branchName. unfold getTagOptions.
    change (typeName k ++ js ".createTag")
      with (typeName k ++ js "." ++ js "createTag").
    rewrite get_boolean_withBoolean by (apply autoUpdate_key_other; simpl; tauto).
    rewrite (get_boolean_withBoolean w _ _ (js "signTags"))
      by (apply eqs_dotless; vm_compute; intuition discriminate).
    rewrite (get_boolean_withBoolean w _ _ (js "promptForTagMessage"))
      by (apply eqs_dotless; vm_compute; intuition discriminate).
    reflexivity. }
  assert (∀ s0, configureDeleteRemote
                  (withBoolean w (typeName k ++ js "." ++ js "autoUpdate") value)
                  (typeName k) s0
                = configureDeleteRemote w (typeName k) s0) as Hremote.
  { intros s0. by rewrite !configureDeleteRemote_run. }
  assert (shouldFetchBeforeStart
            (withBoolean w (typeName k ++ js "." ++ js "autoUpdate") value)
          = shouldFetchBeforeStart w) as Hfetch.
  { unfold shouldFetchBeforeStart.
    rewrite (get_boolean_withBoolean w _ _ (js "fetchBeforeStart"))
      by (apply eqs_dotless; vm_compute; intuition discriminate).
    reflexivity. }
  split; [|split].
  - unfold finishCommand. rewrite !ignoring_run. do 2 f_equal.
    apply bind_cong; [reflexivity|intros [] s1].
    apply bind_cong; [apply Hremote|intros [] s2].
    apply bind_cong; [reflexivity|intros info s3].
    destruct (isType info k).
    + apply bind_cong; [by rewrite Htag|intros tagArgs s4].
      rewrite Hargs. reflexivity.
    + apply bind_cong; [reflexivity|intros output s4].
      destruct (selectableLines k output) as [|line lines]; [reflexivity|].
      apply bind_cong; [reflexivity|intros selected s5].
      apply bind_cong; [|reflexivity].
      destruct (given selected) as [selected'|]; [|reflexivity].
      apply bind_cong; [by rewrite Htag|intros tagArgs s6].
      rewrite Hargs. reflexivity.
  - reflexivity.
  - unfold startCommand. rewrite !ignoring_run. do 2 f_equal.
    apply bind_cong; [reflexivity|intros featureName s1].
    destruct (given featureName) as [featureName'|]; [|reflexivity].
    apply bind_cong; [reflexivity|intros useCustomBase s2].
    apply bind_cong; [reflexivity|intros baseArgs s3].
    apply bind_cong; [reflexivity|intros [] s4].
    rewrite Hfetch. reflexivity.
Qed.

Lemma autoUpdate_unused_witness :
  finishCommand feature
    (withBoolean finishFails (typeName feature ++ js "." ++ js "autoUpdate")
       (Some true))
    initialState
  = finishCommand feature finishFails initialState.
Proof.
  exact (proj1 (autoUpdate_unused feature finishFails (Some true) initialState)).
Defined.

(** X17: deleting a feature. When the list has a branch to offer, the
    user selects one and confirms with [Yes], and
    [git flow feature delete <selected>] succeeds, the context is
    refreshed once, from the repository as the deletion leaves it (the
    delete handlers of the other kinds never refresh it). When the
    deletion fails, nothing is refreshed. *)
Theorem deleteCommand_feature_refreshes (w after : World) (s : State)
    (folder : jstring) (others : list jstring)
    (output stderr line selected : jstring) (lines : list jstring) :
  isGitFlowNextInstalled w = true →
  workspaceFolders w = folder :: others →
  execAsync w (commandLine (js "feature list") []) (Some folder)
  = Returned (output, stderr) →
  selectableLines feature output = line :: lines →
  pickItem w (js "Select feature to delete") (line :: lines) = Some selected →
  truthy selected = true →
  pickItem w (js "Are you sure you want to delete feature " ++ [34] ++ selected
              ++ [34] ++ js "?") [js "Yes"; js "No"] = Some (js "Yes") →
  (∀ stdout' stderr',
     execAsync w (commandLine (js "feature delete") [selected]) (Some folder)
     = Returned (stdout', stderr') →
     contextValues (snd (deleteCommandThen feature w after s))
     = publish (publishedFlags after) (contextValues s)
     ∧ treeRefreshes (snd (deleteCommandThen feature w after s))
       = S (treeRefreshes s))
  ∧ (∀ e,
       execAsync w (commandLine (js "feature delete") [selected]) (Some folder)
       = Thrown e →
       contextValues (snd (deleteCommandThen feature w after s)) = contextValues s
       ∧ treeRefreshes (snd (deleteCommandThen feature w after s))
         = treeRefreshes s).
Proof.
  intros Hinst Hw Hlist Hlines Hpick Hgiven Hconfirm.
  unfold deleteCommandThen. rewrite ignoring_run. cbn [snd].
  destruct (executeGitFlowCommand_succeeds w (typeName feature ++ js " list") []
              false true s folder others output stderr Hinst Hw Hlist)
    as (s1 & E1 & Hc1 & Ht1).
  erewrite bind_returned by exact E1. rewrite Hlines.
  erewrite bind_returned by reflexivity.
  change (js "Select " ++ typeName feature ++ js " to delete")
    with (js "Select feature to delete").
  rewrite Hpick. unfold given. rewrite Hgiven.
  erewrite bind_returned by apply showWarningMessage_run.
  change (js "Are you sure you want to delete " ++ typeName feature ++ js " "
          ++ [34] ++ selected ++ [34] ++ js "?")
    with (js "Are you sure you want to delete feature " ++ [34] ++ selected
          ++ [34] ++ js "?").
  rewrite Hconfirm.
  replace (chose (Some (js "Yes")) (js "Yes")) with true by reflexivity.
  split.
  - intros stdout' stderr' Hdelete.
    destruct (executeGitFlowCommand_succeeds w (typeName feature ++ js " delete")
                [selected] true true
                (snd (show (WarningMessage
                              (js "Are you sure you want to delete feature " ++ [34]
                               ++ selected ++ [34] ++ js "?")
                              [js "Yes"; js "No"]) s1))
                folder others stdout' stderr' Hinst Hw Hdelete)
      as (s2 & E2 & Hc2 & Ht2).
    erewrite bind_returned by exact E2.
    rewrite updateContextVariables_snapshot, updateContextVariables_tree.
    simpl in Hc2, Ht2. split; congruence.
  - intros e Hdelete.
    destruct (executeGitFlowCommand_fails w (typeName feature ++ js " delete")
                [selected] true true
                (snd (show (WarningMessage
                              (js "Are you sure you want to delete feature " ++ [34]
                               ++ selected ++ [34] ++ js "?")
                              [js "Yes"; js "No"]) s1))
                folder others e Hinst Hw Hdelete)
      as (s2 & E2 & Hc2 & Ht2).
    erewrite bind_thrown by exact E2.
    simpl in Hc2, Ht2. simpl. split; congruence.
Qed.

(** The only feature, [login], is deleted: one refresh publishes that
    no feature exists. *)
Lemma deleteCommand_feature_refreshes_witness :
  contextValues (snd (deleteCommandThen feature deletesLogin onDevelop initialState))
    !! contextKeys.featuresExist = Some false
  ∧ treeRefreshes (snd (deleteCommandThen feature deletesLogin onDevelop
                          initialState)) = 1%nat.
Proof.
  destruct (proj1 (deleteCommand_feature_refreshes deletesLogin onDevelop
                     initialState (js "/repo") [] (js "  login" ++ [LF]) []
                     (js "login") (js "login") []
                     eq_refl eq_refl eq_refl eq_refl eq_refl eq_refl eq_refl)
              (js "main") [] eq_refl) as [Hcontext Htree].
  rewrite Hcontext, Htree, publish_lookup. by split.
Defined.

(** X2: what [executeGitFlowCommand] gives. It returns exactly when the
    tool is installed, a folder is open and the process of the command
    line it builds succeeds, and then it returns the standard output
    of that process; with the tool installed and no folder open it
    throws the no-workspace error and shows nothing. It publishes
    nothing, and with [showOutput] and [showError] off (as the branch
    lists call it) and the tool installed it leaves the whole state as
    it is. *)
Theorem executeGitFlowCommand_outcome (w : World) (command : jstring)
    (args : list jstring) (showOutput showError : bool) (s : State) :
  (∀ out,
     fst (executeGitFlowCommand w command args showOutput showError s) = Returned out
     ↔ isGitFlowNextInstalled w = true
       ∧ ∃ folder others stderr,
           workspaceFolders w = folder :: others
           ∧ execAsync w (commandLine command args) (Some folder)
             = Returned (out, stderr))
  ∧ (isGitFlowNextInstalled w = true → workspaceFolders w = [] →
     executeGitFlowCommand w command args showOutput showError s
     = (Thrown noWorkspace, s))
  ∧ quiet (executeGitFlowCommand w command args showOutput showError)
  ∧ (isGitFlowNextInstalled w = true →
     snd (executeGitFlowCommand w command args false false s) = s).
Proof.
  split; [|split; [|split]].
  - intros out. apply executeGitFlowCommand_returns.
  - intros Hinst Hw. unfold executeGitFlowCommand. by rewrite Hinst, Hw.
  - apply quiet_executeGitFlowCommand.
  - intros Hinst. unfold executeGitFlowCommand. rewrite Hinst.
    destruct (workspaceFolders w) as [|folder others]; [done|].
    unfold try_catch, await, mbind, M_bind.
    destruct (execAsync w _ _) as [[stdout stderr]|e]; simpl.
    + by rewrite andb_false_r.
    + done.
Qed.

(** X4: what one refresh does: it writes the flags of [publishedFlags]
    into the context store, and refreshes the tree view once, whether
    or not the current branch can be read. *)
Theorem updateContextVariables_effect (w : World) (s : State) :
  contextValues (snd (updateContextVariables w s))
  = publish (publishedFlags w) (contextValues s)
  ∧ treeRefreshes (snd (updateContextVariables w s)) = S (treeRefreshes s).
Proof.
  split; [apply updateContextVariables_snapshot|apply updateContextVariables_tree].
Qed.

End Handlers.

(** ** Further properties: the tree view *)

Section TreeView.

Variable toLowerCase : jstring → jstring.
Hypothesis toLowerCase_ascii : ∀ s, isAscii s → toLowerCase s = asciiLower s.

Lemma toLowerCase_literal (s : jstring) :
  forallb (λ c, c <? 128) s = true → toLowerCase s = asciiLower s.
Proof.
  intros Hs. apply toLowerCase_ascii. unfold isAscii.
  apply List.Forall_forall. intros c Hc.
  rewrite forallb_forall in Hs. by apply N.ltb_lt, Hs.
Qed.

(** X18: the tree is empty unless the tool is installed and the
    repository initialised. Its roots are Features, Releases,
    Hotfixes, Bugfixes and Support, and the branch types derived from
    their labels (lower case, a final [s] removed) are [feature],
    [release], [hotfixe], [bugfixe] and [support]: the branches under
    Hotfixes and Bugfixes are those of [git flow hotfixe list] and
    [git flow bugfixe list]. The children of a node are never empty
    and are leaves: a single placeholder without a command when the
    list of the node's type is empty, otherwise one item per listed
    branch, labelled with the branch and carrying the command
    [git-flow-next.<type>.checkout] with the branch as its
    argument. *)
Theorem getChildren_nodes (w : World) :
  (isGitFlowNextInstalled w = false ∨ isGitFlowInitialized w = false →
   ∀ element, getChildren toLowerCase w element = [])
  ∧ (isGitFlowNextInstalled w = true → isGitFlowInitialized w = true →
     map label (getChildren toLowerCase w None)
     = [js "Features"; js "Releases"; js "Hotfixes"; js "Bugfixes"; js "Support"]
     ∧ map (λ item, dropFinalS (toLowerCase (label item)))
         (getChildren toLowerCase w None)
       = [js "feature"; js "release"; js "hotfixe"; js "bugfixe"; js "support"]
     ∧ ∀ element,
         let branchType := dropFinalS (toLowerCase (label element)) in
         let children := getChildren toLowerCase w (Some element) in
         children ≠ []
         ∧ Forall (λ child, collapsibleState child = None_) children
         ∧ (treeGetBranchList w branchType = [] →
            ∃ text, children
                    = [{| label := text; collapsibleState := None_;
                          itemCommand := None;
                          contextValue := Some (js "empty") |}])
         ∧ (treeGetBranchList w branchType ≠ [] →
            map label children = treeGetBranchList w branchType
            ∧ Forall (λ child,
                        itemCommand child
                        = Some {| command := js "git-flow-next." ++ branchType
                                             ++ js ".checkout";
                                  title := js "Checkout Branch";
                                  arguments := [label child] |})
                children)).
Proof.
  split.
  - intros Hoff element. unfold getChildren.
    destruct Hoff as [->| ->]; [reflexivity|].
    destruct (isGitFlowNextInstalled w); reflexivity.
  - intros Hinst Hinit. unfold getChildren. rewrite Hinst, Hinit. simpl negb. cbv iota.
    split; [reflexivity|]. split.
    + simpl map. rewrite !toLowerCase_literal by reflexivity. reflexivity.
    + intros element. cbv zeta.
      destruct (treeGetBranchList w _) as [|branch branches] eqn:E.
      * split; [done|]. split; [by repeat constructor|].
        split; [eauto|done].
      * split; [done|]. split; [|split; [done|]].
        { apply List.Forall_forall. intros child Hchild.
          apply in_map_iff in Hchild as (b & <- & _). reflexivity. }
        intros _. split.
        { rewrite map_map. simpl. f_equal. apply map_id. }
        apply List.Forall_forall. intros child Hchild.
        apply in_map_iff in Hchild as (b & <- & _). reflexivity.
Qed.

End TreeView.

(** With ASCII lower-casing, in an initialised repository. *)
Lemma getChildren_nodes_witness :
  map (λ item, dropFinalS (asciiLower (label item)))
    (getChildren asciiLower initialised None)
  = [js "feature"; js "release"; js "hotfixe"; js "bugfixe"; js "support"].
Proof.
  exact (proj1 (proj2 (proj2 (getChildren_nodes asciiLower (λ _ _, eq_refl)
                                initialised) eq_refl eq_refl))).
Defined.

(** ** Further properties: the classifier *)

Section BranchState.

Lemma branchInfoOf_invariant b :
  fullName (branchInfoOf b) = b
  ∧ (In (type (branchInfoOf b)) topicTypes →
     b = prefix (type (branchInfoOf b)) ++ name (branchInfoOf b))
  ∧ (¬ In (type (branchInfoOf b)) topicTypes → name (branchInfoOf b) = b).
Proof.
  unfold branchInfoOf.
  repeat match goal with
         | |- context [if startsWith b ?p then _ else _] =>
             let E := fresh "E" in
             destruct (startsWith b p) eqn:E;
             [apply startsWith_split in E as [r ->]; rewrite replace_prefix; simpl;
              split; [done|]; split; [done|]; intros Hout; exfalso; apply Hout;
              simpl; tauto|]
         end.
  destruct (eqs b (js "main") || eqs b (js "master"));
    [|destruct (eqs b (js "develop"))]; simpl;
    (split; [done|]; split; [|done]);
    intros Hin; repeat (destruct Hin as [Hin|Hin]; try discriminate); done.
Qed.

(** X1: what [getCurrentBranch] gives. It throws the no-workspace
    error when no folder is open and the not-in-a-repository error
    when [git branch --show-current] fails, and nothing else. Every
    branch it returns has the trimmed output as its full name; for a
    topic kind the full name is the prefix of the kind followed by the
    short name, and for [main], [develop] and [unknown] the short name
    is the full name. *)
Theorem getCurrentBranch_outcome (w : World) :
  (∀ e, getCurrentBranch w = Thrown e ↔
     (workspaceFolders w = [] ∧ e = noWorkspace)
     ∨ (∃ folder others e',
          workspaceFolders w = folder :: others
          ∧ execAsync w (js "git branch --show-current") (Some folder) = Thrown e'
          ∧ e = notInRepository))
  ∧ (∀ info, getCurrentBranch w = Returned info →
       (∃ folder others stdout stderr,
          workspaceFolders w = folder :: others
          ∧ execAsync w (js "git branch --show-current") (Some folder)
            = Returned (stdout, stderr)
          ∧ fullName info = trim stdout)
       ∧ (In (type info) topicTypes →
          fullName info = prefix (type info) ++ name info)
       ∧ (¬ In (type info) topicTypes → name info = fullName info)).
Proof.
  split; [intros e; apply getCurrentBranch_throws|].
  intros info. unfold getCurrentBranch.
  destruct (workspaceFolders w) as [|folder others]; [done|].
  destruct (execAsync w _ _) as [[stdout stderr]|e] eqn:E; [|done].
  intros [= <-].
  destruct (branchInfoOf_invariant (trim stdout)) as (Hfull & Htopic & Hbase).
  split; [eauto 8|]. rewrite Hfull. split; [exact Htopic|].
  intros Hout. by apply Hbase.
Qed.

End BranchState.
